(** * Piazza: posts, ratings and comments under expiry

    A shallow embedding of the Django application [api] (models.py,
    serializers.py, views.py).  The database is a record of tables, each a
    list of rows in insertion order.  Every call of [timezone.now()] in the
    source is an explicit [datetime] argument of the function that makes it,
    so a request that validates and then saves receives two clock readings.
    Exceptions are the left summand of [result].  The texts of a request are
    sequences of Unicode code points, and a [CharField] strips, checks and
    stores them as the serializer field does. *)

From Stdlib Require Import ZArith NArith List String Ascii Bool Lia.
From Stdlib Require Import Permutation Sorted.
Import ListNotations.

Local Open Scope string_scope.
Local Open Scope list_scope.
Local Open Scope Z_scope.

(** ** Values *)

(** Primary keys of the auto-incremented tables, and of [auth.User]. *)
Definition pk := nat.
Definition User := nat.

(** [DateTimeField] and [DurationField]: instants and signed durations in
    one fixed unit. *)
Definition datetime := Z.
Definition timedelta := Z.

(** A Python [str] that a request carries or a [CharField] stores: its
    Unicode code points, in order.  Its length is the number of code points,
    as [len] counts and [max_length] is measured. *)
Definition text := list N.

(** A literal of this file stands for the text its UTF-8 bytes encode. *)
Fixpoint literal (s : string) : text :=
  match s with
  | EmptyString => []
  | String a s1 =>
      let b := N_of_ascii a in
      if (b <? 128)%N then b :: literal s1
      else
        match s1 with
        | EmptyString => []
        | String a2 s2 =>
            let b2 := (N_of_ascii a2 - 128)%N in
            if (b <? 224)%N then ((b - 192) * 64 + b2)%N :: literal s2
            else
              match s2 with
              | EmptyString => []
              | String a3 s3 =>
                  let b3 := (N_of_ascii a3 - 128)%N in
                  if (b <? 240)%N
                  then ((b - 224) * 4096 + b2 * 64 + b3)%N :: literal s3
                  else
                    match s3 with
                    | EmptyString => []
                    | String a4 s4 =>
                        let b4 := (N_of_ascii a4 - 128)%N in
                        ((b - 240) * 262144 + b2 * 4096 + b3 * 64 + b4)%N
                          :: literal s4
                    end
              end
        end
  end.

Coercion literal : string >-> text.

(** [str.isspace] of one character: the code points Python holds to be
    whitespace. *)
Definition isspace (c : N) : bool :=
  ((9 <=? c) && (c <=? 13) || (28 <=? c) && (c <=? 32)
   || (c =? 133) || (c =? 160) || (c =? 5760)
   || (8192 <=? c) && (c <=? 8202)
   || (c =? 8232) || (c =? 8233) || (c =? 8239) || (c =? 8287)
   || (c =? 12288))%N.

Fixpoint lstrip (s : text) : text :=
  match s with
  | [] => []
  | c :: s' => if isspace c then lstrip s' else s
  end.

Definition rstrip (s : text) : text := rev (lstrip (rev s)).

(** [str.strip()] *)
Definition strip (s : text) : text := rstrip (lstrip s).

(** A surrogate code point, U+D800 to U+DFFF. *)
Definition is_surrogate (c : N) : bool := ((55296 <=? c) && (c <=? 57343))%N.

(** ** Exceptions and the result of a call *)

(** The detail of a [serializers.ValidationError]: what [validate] raises
    lands under [non_field_errors]; field validation reports, per field, the
    code of the failed check. *)
Inductive detail :=
| non_field_errors (msg : string)
| field_errors (errs : list (string * string)).

Inductive exn :=
| DoesNotExist
| ValidationError (d : detail).

Definition result (A : Type) : Type := exn + A.

Definition ok {A} (a : A) : result A := inr a.
Definition raise {A} (e : exn) : result A := inl e.

Definition bind {A B} (m : result A) (k : A -> result B) : result B :=
  match m with
  | inl e => inl e
  | inr a => k a
  end.

Notation "x <- m ;; k" := (bind m (fun x => k))
  (at level 61, m at next level, right associativity).

(** ** models.py *)

Module Topic.

(** [Topic.TYPES]: stored value and label. *)
Definition TYPES : list (string * string) :=
  [("politics", "Politics"); ("health", "Health");
   ("sport", "Sport"); ("tech", "Tech")].

End Topic.

(** A [Topic] row is its primary key [title]. *)
Definition Topic := string.

Record Post := mkPost {
  post_id : pk;
  title : text;
  message : text;
  owner : User;
  date_created : datetime;
  expiry_date : datetime
}.

(** [Rating.Rate] *)
Inductive Rate := LIKE | DISLIKE.

Definition Rate_eqb (a b : Rate) : bool :=
  match a, b with
  | LIKE, LIKE | DISLIKE, DISLIKE => true
  | _, _ => false
  end.

Record Rating := mkRating {
  rating_id : pk;
  rating_user : User;
  rating_post : pk;
  rating : Rate;
  rating_time_left_until_post_expiry : timedelta
}.

Record Comment := mkComment {
  comment_id : pk;
  comment_user : User;
  comment_post : pk;
  comment : text;
  comment_time_left_until_post_expiry : timedelta
}.

(** The tables.  [post_topics] is the join table of [Post.topics]. *)
Record Database := mkDatabase {
  topic_table : list Topic;
  post_table : list Post;
  post_topics : list (pk * Topic);
  rating_table : list Rating;
  comment_table : list Comment
}.

(** An installation with the given [Topic] rows and nothing else. *)
Definition empty_database (topics : list Topic) : Database :=
  mkDatabase topics [] [] [] [].

(** The key an [AutoField] gives the next row of a table without deletions. *)
Definition next_pk {A} (table : list A) : pk := S (List.length table).

(** *** Managers and related managers *)

(** [Post.objects.get(pk=k)] *)
Definition Post_objects_get (db : Database) (k : pk) : result Post :=
  match find (fun p => Nat.eqb (post_id p) k) (post_table db) with
  | Some p => ok p
  | None => raise DoesNotExist
  end.

(** [Topic.objects.filter(pk=t).exists()] *)
Definition Topic_exists (db : Database) (t : Topic) : bool :=
  existsb (String.eqb t) (topic_table db).

(** [post.rating_set] *)
Definition rating_set (db : Database) (post : Post) : list Rating :=
  filter (fun r => Nat.eqb (rating_post r) (post_id post)) (rating_table db).

(** [post.comment_set] *)
Definition comment_set (db : Database) (post : Post) : list Comment :=
  filter (fun c => Nat.eqb (comment_post c) (post_id post)) (comment_table db).

(** [queryset.filter(user=user)] on ratings *)
Definition filter_user (user : User) (rs : list Rating) : list Rating :=
  filter (fun r => Nat.eqb (rating_user r) user) rs.

(** [queryset.filter(rating=v)] *)
Definition filter_rating (v : Rate) (rs : list Rating) : list Rating :=
  filter (fun r => Rate_eqb (rating r) v) rs.

(** [queryset.count()] *)
Definition count {A} (l : list A) : Z := Z.of_nat (List.length l).

(** [Rating.objects.create(...)], [Comment.objects.create(...)] *)
Definition insert_rating (db : Database) (r : Rating) : Database :=
  mkDatabase (topic_table db) (post_table db) (post_topics db)
             (rating_table db ++ [r]) (comment_table db).

Definition insert_comment (db : Database) (c : Comment) : Database :=
  mkDatabase (topic_table db) (post_table db) (post_topics db)
             (rating_table db) (comment_table db ++ [c]).

(** [Post.objects.create(...)] *)
Definition insert_post (db : Database) (p : Post) : Database :=
  mkDatabase (topic_table db) (post_table db ++ [p]) (post_topics db)
             (rating_table db) (comment_table db).

(** [post.topics.add(topic)]: a pair already in the join table is not added
    again. *)
Definition topics_add (db : Database) (post : Post) (t : Topic) : Database :=
  if existsb (fun row => Nat.eqb (fst row) (post_id post) && String.eqb (snd row) t)
             (post_topics db)
  then db
  else mkDatabase (topic_table db) (post_table db)
                  (post_topics db ++ [(post_id post, t)])
                  (rating_table db) (comment_table db).

(** ** Field validation derived from the model fields *)

(** The validators of a [CharField(max_length=n)], run on the value the
    field has made of its input; the errors of all of them are reported. *)
Definition run_validators (name : string) (max_length : nat) (value : text)
  : list (string * string) :=
  (if Nat.ltb max_length (List.length value) then [(name, "max_length")] else [])
  ++ (if existsb (N.eqb 0) value
      then [(name, "null_characters_not_allowed")] else [])
  ++ (if existsb is_surrogate value
      then [(name, "surrogate_characters_not_allowed")] else []).

(** A required [CharField(max_length=n)] that does not allow blank: the
    errors of an input.  The field strips the whitespace around its input
    ([trim_whitespace]); an input of which nothing is left is refused as
    blank, and otherwise the stripped value goes through the validators. *)
Definition CharField (name : string) (max_length : nat) (data : text)
  : list (string * string) :=
  match strip data with
  | [] => [(name, "blank")]
  | value => run_validators name max_length value
  end.

(** The choice field of [Rating.rating]: the stored values of [Rate]. *)
Definition Rate_of_string (s : string) : option Rate :=
  if String.eqb s "LIKE" then Some LIKE
  else if String.eqb s "DISLIKE" then Some DISLIKE
  else None.

(** ** serializers.py *)

Module RatingSerializer.

(** The only writable field is [rating]; the model default makes it
    optional, and an absent key stays absent in the validated data. *)
Definition to_internal_value (data : option string) : result (option Rate) :=
  match data with
  | None => ok None
  | Some s =>
      match Rate_of_string s with
      | Some v => ok (Some v)
      | None => raise (ValidationError (field_errors [("rating", "invalid_choice")]))
      end
  end.

Definition validate (db : Database) (user : User) (post_pk : pk)
  (now : datetime) (data : option Rate) : result (option Rate) :=
  post <- Post_objects_get db post_pk ;;
  if Nat.eqb user (owner post) then
    raise (ValidationError (non_field_errors "A person cannot rate their own post."))
  else if expiry_date post <? now then
    raise (ValidationError (non_field_errors "Cannot rate an expired post."))
  else if negb (count (filter_user user (rating_set db post)) =? 0) then
    raise (ValidationError (non_field_errors "User has already rated this post."))
  else ok data.

Definition create (db : Database) (user : User) (post_pk : pk)
  (now : datetime) (validated_data : option Rate) : result (Database * Rating) :=
  post <- Post_objects_get db post_pk ;;
  let time_left_until_post_expiry := expiry_date post - now in
  let r := mkRating (next_pk (rating_table db)) user (post_id post)
                    (match validated_data with Some v => v | None => LIKE end)
                    time_left_until_post_expiry in
  ok (insert_rating db r, r).

End RatingSerializer.

Module CommentSerializer.

(** The only writable field is [comment]; its validated value is the
    stripped text. *)
Definition to_internal_value (data : text) : result text :=
  match CharField "comment" 256 data with
  | [] => ok (strip data)
  | errs => raise (ValidationError (field_errors errs))
  end.

Definition validate (db : Database) (post_pk : pk) (now : datetime)
  (data : text) : result text :=
  post <- Post_objects_get db post_pk ;;
  if expiry_date post <? now then
    raise (ValidationError (non_field_errors "Cannot rate an expired post."))
  else ok data.

Definition create (db : Database) (user : User) (post_pk : pk)
  (now : datetime) (validated_data : text) : result (Database * Comment) :=
  post <- Post_objects_get db post_pk ;;
  let time_left_until_post_expiry := expiry_date post - now in
  let c := mkComment (next_pk (comment_table db)) user (post_id post)
                     validated_data time_left_until_post_expiry in
  ok (insert_comment db c, c).

End CommentSerializer.

(** The writable fields of a post, after decoding. *)
Record PostData := mkPostData {
  data_title : text;
  data_topics : list Topic;
  data_message : text;
  data_expiry_date : datetime
}.

Module PostSerializer.

Definition validate_expiry_date (value : datetime) (now : datetime)
  : result datetime :=
  if value <? now then
    raise (ValidationError (non_field_errors "Expiry date must not be in the past."))
  else ok value.

(** The related field of the many-to-many [topics] (the model field is not
    [blank]): the list may not be empty and every key must be a [Topic] row. *)
Definition topics_field (db : Database) (value : list Topic)
  : list (string * string) :=
  match value with
  | [] => [("topics", "empty")]
  | _ => if forallb (Topic_exists db) value then []
         else [("topics", "does_not_exist")]
  end.

Definition expiry_date_field (value : datetime) (now : datetime)
  : list (string * string) :=
  match validate_expiry_date value now with
  | inr _ => []
  | inl _ => [("expiry_date", "Expiry date must not be in the past.")]
  end.

(** Each writable field is validated, in the order of [Meta.fields], and the
    errors of all of them are reported together; the validated title and
    message are the stripped texts. *)
Definition to_internal_value (db : Database) (now : datetime) (data : PostData)
  : result PostData :=
  match CharField "title" 150 (data_title data)
        ++ topics_field db (data_topics data)
        ++ CharField "message" 1000 (data_message data)
        ++ expiry_date_field (data_expiry_date data) now with
  | [] => ok (mkPostData (strip (data_title data)) (data_topics data)
                         (strip (data_message data)) (data_expiry_date data))
  | errs => raise (ValidationError (field_errors errs))
  end.

(** [date_created] has [auto_now_add]: it is the clock when the row is
    saved. *)
Definition create (db : Database) (user : User) (now : datetime)
  (validated_data : PostData) : Database * Post :=
  let topics := data_topics validated_data in
  let post := mkPost (next_pk (post_table db))
                     (data_title validated_data) (data_message validated_data)
                     user now (data_expiry_date validated_data) in
  let db := insert_post db post in
  (fold_left (fun db topic => topics_add db post topic) topics db, post).

Definition LIVE : string := "Live".
Definition EXPIRED : string := "Expired".

Definition get_status (obj : Post) (now : datetime) : string :=
  if expiry_date obj <? now then EXPIRED else LIVE.

Definition get_likes (db : Database) (obj : Post) : Z :=
  count (filter_rating LIKE (rating_set db obj)).

Definition get_dislikes (db : Database) (obj : Post) : Z :=
  count (filter_rating DISLIKE (rating_set db obj)).

End PostSerializer.

(** ** The ordering done by the database *)

(** [order_by] with one key is answered by the database engine.  The
    application fixes nothing beyond the contract of ORDER BY: the rows come
    back rearranged, with the keys ascending. *)
Class Backend := {
  order_by : (Post -> Z) -> list Post -> list Post;
  order_by_Permutation : forall key l, Permutation l (order_by key l);
  order_by_Sorted : forall key l,
    StronglySorted (fun p q => key p <= key q) (order_by key l)
}.

(** ** views.py *)

Module PostViewSet.

(** [Post.objects.filter(topics=topic_pk)] *)
Definition filter_topics (db : Database) (topic_pk : Topic) : list Post :=
  filter (fun p =>
            existsb (fun row => Nat.eqb (fst row) (post_id p)
                                && String.eqb (snd row) topic_pk)
                    (post_topics db))
         (post_table db).

(** [annotate(num_ratings=Count('rating'))] *)
Definition num_ratings (db : Database) (p : Post) : Z :=
  count (rating_set db p).

Definition get_queryset {B : Backend} (db : Database) (topic_pk : Topic)
  (status interest : option string) (now : datetime) : list Post :=
  let queryset := filter_topics db topic_pk in
  let queryset :=
    match status with
    | Some s =>
        if String.eqb s "expired" then
          filter (fun p => expiry_date p <? now) queryset
        else if String.eqb s "live" then
          filter (fun p => expiry_date p >=? now) queryset
        else queryset
    | None => queryset
    end in
  match interest with
  | Some i =>
      if String.eqb i "highest" then
        firstn 1 (order_by (fun p => - num_ratings db p) queryset)
      else if String.eqb i "lowest" then
        firstn 1 (order_by (fun p => num_ratings db p) queryset)
      else queryset
  | None => queryset
  end.

(** The inherited [create]: validate, then save. *)
Definition create (db : Database) (user : User) (data : PostData)
  (now_valid now_save : datetime) : result (Database * Post) :=
  validated_data <- PostSerializer.to_internal_value db now_valid data ;;
  ok (PostSerializer.create db user now_save validated_data).

End PostViewSet.

Module RatingViewSet.

Definition get_queryset (db : Database) (post_pk : pk) : list Rating :=
  filter (fun r => Nat.eqb (rating_post r) post_pk) (rating_table db).

(** [serializer.is_valid(raise_exception=True)] then [serializer.save()]. *)
Definition create (db : Database) (user : User) (post_pk : pk)
  (data : option string) (now_valid now_save : datetime)
  : result (Database * Rating) :=
  value <- RatingSerializer.to_internal_value data ;;
  validated_data <- RatingSerializer.validate db user post_pk now_valid value ;;
  RatingSerializer.create db user post_pk now_save validated_data.

End RatingViewSet.

Module CommentViewSet.

Definition get_queryset (db : Database) (post_pk : pk) : list Comment :=
  filter (fun c => Nat.eqb (comment_post c) post_pk) (comment_table db).

Definition create (db : Database) (user : User) (post_pk : pk)
  (data : text) (now_valid now_save : datetime)
  : result (Database * Comment) :=
  value <- CommentSerializer.to_internal_value data ;;
  validated_data <- CommentSerializer.validate db post_pk now_valid value ;;
  CommentSerializer.create db user post_pk now_save validated_data.

End CommentViewSet.

(** ** The service as a transition system *)

(** The requests the routers accept: the view sets allow only GET and POST. *)
Inductive Request :=
| POST_posts (user : User) (data : PostData)
| POST_ratings (user : User) (post_pk : pk) (data : option string)
| POST_comments (user : User) (post_pk : pk) (data : text)
| GET_posts (topic_pk : Topic) (status interest : option string)
| GET_ratings (post_pk : pk)
| GET_comments (post_pk : pk).

(** A request with the readings of the clock it makes. *)
Record Call := mkCall {
  call_request : Request;
  call_now_valid : datetime;
  call_now_save : datetime
}.

(** The database after a call: a call that raises writes nothing, and a GET
    only reads. *)
Definition handle (db : Database) (c : Call) : Database :=
  match call_request c with
  | POST_posts user data =>
      match PostViewSet.create db user data (call_now_valid c) (call_now_save c) with
      | inr (db', _) => db'
      | inl _ => db
      end
  | POST_ratings user post_pk data =>
      match RatingViewSet.create db user post_pk data
                                 (call_now_valid c) (call_now_save c) with
      | inr (db', _) => db'
      | inl _ => db
      end
  | POST_comments user post_pk data =>
      match CommentViewSet.create db user post_pk data
                                  (call_now_valid c) (call_now_save c) with
      | inr (db', _) => db'
      | inl _ => db
      end
  | GET_posts _ _ _ | GET_ratings _ | GET_comments _ => db
  end.

Definition run (db : Database) (calls : list Call) : Database :=
  fold_left handle calls db.

(** ** Two database engines

    Both sort by insertion and honour ORDER BY.  They differ only in where
    a row lands among rows of equal key: before them ([ties_first], which
    keeps equal rows in table order) or after them (which reverses them). *)

Fixpoint insert_by (ties_first : bool) (key : Post -> Z) (x : Post)
  (l : list Post) : list Post :=
  match l with
  | [] => [x]
  | y :: l' =>
      if (if ties_first then key x <=? key y else key x <? key y)
      then x :: l
      else y :: insert_by ties_first key x l'
  end.

Definition sort_by (ties_first : bool) (key : Post -> Z) (l : list Post)
  : list Post :=
  fold_right (insert_by ties_first key) [] l.

(** ** The ranking as the specification words it *)




(** * Properties *)

(** ** The error monad *)

Lemma bind_inr {A B} (m : result A) (k : A -> result B) (b : B) :
  bind m k = inr b -> exists a, m = inr a /\ k a = inr b.
Proof.
  destruct m as [e | a]; simpl; intros E.
  - discriminate.
  - exists a; split; [reflexivity | exact E].
Qed.

Lemma bind_ok {A B} (a : A) (k : A -> result B) : bind (ok a) k = k a.
Proof. reflexivity. Qed.

Lemma bind_raise {A B} (e : exn) (k : A -> result B) :
  bind (raise e) k = raise e.
Proof. reflexivity. Qed.

(** ** Sorting *)

Lemma insert_by_Permutation ties key x l :
  Permutation (x :: l) (insert_by ties key x l).
Proof.
  induction l as [| y l IH]; simpl.
  - apply Permutation_refl.
  - destruct (if ties then key x <=? key y else key x <? key y).
    + apply Permutation_refl.
    + eapply perm_trans; [apply perm_swap |].
      apply perm_skip, IH.
Qed.

Lemma sort_by_Permutation ties key l : Permutation l (sort_by ties key l).
Proof.
  induction l as [| x l IH]; simpl.
  - apply perm_nil.
  - eapply perm_trans; [apply perm_skip, IH |].
    apply insert_by_Permutation.
Qed.

Lemma insert_by_Sorted ties key x l :
  StronglySorted (fun p q => key p <= key q) l ->
  StronglySorted (fun p q => key p <= key q) (insert_by ties key x l).
Proof.
  induction l as [| y l IH]; simpl; intros S.
  - constructor; [constructor | constructor].
  - inversion S as [| ? ? Sl Hy]; subst.
    destruct (if ties then key x <=? key y else key x <? key y) eqn:T.
    + assert (Hxy : key x <= key y) by (destruct ties; lia).
      constructor; [exact S |].
      constructor; [exact Hxy |].
      rewrite Forall_forall in *. intros z Hz. specialize (Hy z Hz). lia.
    + assert (Hyx : key y <= key x) by (destruct ties; lia).
      constructor; [apply IH, Sl |].
      rewrite Forall_forall in *. intros z Hz.
      apply (Permutation_in _ (Permutation_sym (insert_by_Permutation ties key x l))) in Hz.
      destruct Hz as [<- | Hz]; [exact Hyx | apply Hy, Hz].
Qed.

Lemma sort_by_Sorted ties key l :
  StronglySorted (fun p q => key p <= key q) (sort_by ties key l).
Proof.
  induction l as [| x l IH]; simpl.
  - constructor.
  - apply insert_by_Sorted, IH.
Qed.

(** The engine that keeps rows of equal key in table order: what the
    database of the service does with the query of [get_queryset]. *)
Definition ties_in_order : Backend :=
  {| order_by := sort_by true;
     order_by_Permutation := sort_by_Permutation true;
     order_by_Sorted := sort_by_Sorted true |}.

(** An engine that returns rows of equal key in reverse table order: also
    within ORDER BY, and used to show what does not depend on the order of
    equal rows. *)
Definition ties_reversed : Backend :=
  {| order_by := sort_by false;
     order_by_Permutation := sort_by_Permutation false;
     order_by_Sorted := sort_by_Sorted false |}.

(** ** What a rating or comment request does, once the post is found *)

Definition self_rating : exn :=
  ValidationError (non_field_errors "A person cannot rate their own post.").
Definition expired : exn :=
  ValidationError (non_field_errors "Cannot rate an expired post.").
Definition already_rated : exn :=
  ValidationError (non_field_errors "User has already rated this post.").

(** The row a successful rating request stores. *)
Definition new_rating (db : Database) (user : User) (post : Post)
  (value : option Rate) (now_save : datetime) : Rating :=
  mkRating (next_pk (rating_table db)) user (post_id post)
           (match value with Some v => v | None => LIKE end)
           (expiry_date post - now_save).

(** The row a successful comment request stores. *)
Definition new_comment (db : Database) (user : User) (post : Post)
  (value : text) (now_save : datetime) : Comment :=
  mkComment (next_pk (comment_table db)) user (post_id post) value
            (expiry_date post - now_save).

Lemma rating_create_found db user post_pk data value now_valid now_save post :
  RatingSerializer.to_internal_value data = ok value ->
  Post_objects_get db post_pk = ok post ->
  RatingViewSet.create db user post_pk data now_valid now_save =
    if Nat.eqb user (owner post) then raise self_rating
    else if expiry_date post <? now_valid then raise expired
    else if negb (count (filter_user user (rating_set db post)) =? 0)
         then raise already_rated
    else ok (insert_rating db (new_rating db user post value now_save),
             new_rating db user post value now_save).
Proof.
  intros Hv Hp.
  unfold RatingViewSet.create, RatingSerializer.validate, RatingSerializer.create.
  rewrite Hv, bind_ok, Hp, bind_ok.
  destruct (Nat.eqb user (owner post)); [reflexivity |].
  destruct (expiry_date post <? now_valid); [reflexivity |].
  destruct (negb _); reflexivity.
Qed.

Lemma comment_create_found db user post_pk text now_valid now_save post :
  CharField "comment" 256 text = [] ->
  Post_objects_get db post_pk = ok post ->
  CommentViewSet.create db user post_pk text now_valid now_save =
    if expiry_date post <? now_valid then raise expired
    else ok (insert_comment db (new_comment db user post (strip text) now_save),
             new_comment db user post (strip text) now_save).
Proof.
  intros Hv Hp.
  unfold CommentViewSet.create, CommentSerializer.to_internal_value,
    CommentSerializer.validate, CommentSerializer.create.
  rewrite Hv, bind_ok, Hp, bind_ok.
  destruct (expiry_date post <? now_valid); reflexivity.
Qed.

Lemma count_zero_nil {A} (l : list A) : (count l =? 0) = true <-> l = [].
Proof.
  unfold count. destruct l as [| a l]; simpl List.length.
  - split; reflexivity.
  - rewrite Z.eqb_eq. split; [lia | discriminate].
Qed.

(** ** Text fields *)

(** An input the [CharField] of the given length refuses: nothing is left of
    it once stripped, or what is left is too long, or holds a null
    character or a surrogate. *)
Definition bad_text (max_length : nat) (data : text) : Prop :=
  strip data = []
  \/ (max_length < List.length (strip data))%nat
  \/ In 0%N (strip data)
  \/ existsb is_surrogate (strip data) = true.

Lemma has_null_In (value : text) :
  existsb (N.eqb 0) value = true <-> In 0%N value.
Proof.
  rewrite existsb_exists. split.
  - intros (c & Hin & E). apply N.eqb_eq in E. subst c. exact Hin.
  - intros Hin. exists 0%N. split; [exact Hin | reflexivity].
Qed.

Lemma run_validators_cases name max_length value :
  (run_validators name max_length value = []
   /\ (List.length value <= max_length)%nat
   /\ ~ In 0%N value
   /\ existsb is_surrogate value = false)
  \/ (run_validators name max_length value <> []
      /\ ((max_length < List.length value)%nat
          \/ In 0%N value
          \/ existsb is_surrogate value = true)).
Proof.
  unfold run_validators.
  destruct (Nat.ltb_spec max_length (List.length value)) as [Hlong | Hfits].
  { right. split; [discriminate | left; exact Hlong]. }
  destruct (existsb (N.eqb 0) value) eqn:Hnull.
  { right. split; [discriminate | right; left; apply has_null_In, Hnull]. }
  destruct (existsb is_surrogate value) eqn:Hsur.
  { right. split; [discriminate | right; right; reflexivity]. }
  left. split; [reflexivity | split; [exact Hfits | split; [| reflexivity]]].
  intros Hin. apply has_null_In in Hin. congruence.
Qed.

Lemma CharField_cases name max_length data :
  (CharField name max_length data = [] /\ ~ bad_text max_length data)
  \/ (CharField name max_length data <> [] /\ bad_text max_length data).
Proof.
  unfold CharField, bad_text.
  destruct (strip data) as [| c value] eqn:E.
  - right. split; [discriminate | left; reflexivity].
  - destruct (run_validators_cases name max_length (c :: value))
      as [(Hnone & Hfits & Hnull & Hsur) | (Hsome & Hbad)].
    + left. split; [exact Hnone |].
      intros [Hb | [Hb | [Hb | Hb]]]; [discriminate | lia | tauto | congruence].
    + right. split; [exact Hsome | right; exact Hbad].
Qed.

Lemma CharField_good name max_length data :
  CharField name max_length data = [] -> ~ bad_text max_length data.
Proof.
  intros E. destruct (CharField_cases name max_length data) as [[_ G] | [B _]];
    [exact G | contradiction].
Qed.

Lemma CharField_accepts name max_length data :
  ~ bad_text max_length data -> CharField name max_length data = [].
Proof.
  intros G. destruct (CharField_cases name max_length data) as [[E _] | [_ B]];
    [exact E | contradiction].
Qed.

(** The field at work: whitespace around a text is stripped, a text of
    whitespace only is blank, and the length is counted in characters, not
    in bytes. *)
Example CharField_at_work :
  strip "  hi  " = "hi"
  /\ CharField "comment" 256 "   " = [("comment", "blank")]
  /\ List.length (literal "é") = 1%nat
  /\ CharField "comment" 256 (repeat 233%N 256) = []
  /\ CharField "comment" 256 (repeat 233%N 257) = [("comment", "max_length")]
  /\ CharField "comment" 256 [97%N; 0%N]
     = [("comment", "null_characters_not_allowed")].
Proof. repeat split. Qed.

(** What [strip] returns has no whitespace at either end, so stripping it
    again changes nothing. *)
Lemma lstrip_head (s : text) :
  match lstrip s with
  | [] => True
  | c :: _ => isspace c = false
  end.
Proof.
  induction s as [| c s IH]; simpl; [exact I |].
  destruct (isspace c) eqn:E; [exact IH | exact E].
Qed.

Lemma lstrip_fixed (s : text) :
  match s with
  | [] => True
  | c :: _ => isspace c = false
  end ->
  lstrip s = s.
Proof.
  destruct s as [| c s]; simpl; [reflexivity |].
  intros ->. reflexivity.
Qed.

Lemma lstrip_snoc (s : text) (c : N) :
  isspace c = false -> lstrip (s ++ [c]) = lstrip s ++ [c].
Proof.
  intros Hc. induction s as [| d s IH]; simpl.
  - rewrite Hc. reflexivity.
  - destruct (isspace d); [exact IH | reflexivity].
Qed.

Lemma rstrip_cons (c : N) (s : text) :
  isspace c = false -> rstrip (c :: s) = c :: rstrip s.
Proof.
  intros Hc. unfold rstrip. simpl rev.
  rewrite (lstrip_snoc _ _ Hc), rev_app_distr. reflexivity.
Qed.

Lemma rstrip_fixed (s : text) :
  match rev s with
  | [] => True
  | c :: _ => isspace c = false
  end ->
  rstrip s = s.
Proof.
  intros H. unfold rstrip. rewrite (lstrip_fixed _ H). apply rev_involutive.
Qed.

Lemma strip_strip (s : text) : strip (strip s) = strip s.
Proof.
  unfold strip.
  pose proof (lstrip_head s) as Hhead.
  destruct (lstrip s) as [| c u] eqn:E.
  - reflexivity.
  - rewrite (rstrip_cons _ _ Hhead).
    rewrite (lstrip_fixed (c :: rstrip u) Hhead).
    rewrite <- (rstrip_cons _ _ Hhead).
    apply rstrip_fixed.
    unfold rstrip. rewrite rev_involutive. apply lstrip_head.
Qed.

(** ** Fixtures *)

(** One post, number 1, of user 1, created at 0 and expiring at 10, under
    the topic tech. *)
Definition the_post : Post := mkPost 1%nat "P" "hello" 1%nat 0 10.

Definition one_post_db : Database :=
  mkDatabase (map fst Topic.TYPES) [the_post] [(1%nat, "tech")] [] [].

(** ** C1: the expiry gate of ratings and comments *)

(** C1 as stated is false: at the very instant of expiry ([now] equal to the
    expiry date 10 of the post) a rating by an eligible user and a comment
    are both accepted and stored, with no time left. *)
Lemma C1_accepted_at_expiry :
  Post_objects_get one_post_db 1%nat = ok the_post
  /\ expiry_date the_post = 10
  /\ RatingViewSet.create one_post_db 2%nat 1%nat (Some "LIKE") 10 10
     = ok (insert_rating one_post_db (mkRating 1%nat 2%nat 1%nat LIKE 0),
           mkRating 1%nat 2%nat 1%nat LIKE 0)
  /\ CommentViewSet.create one_post_db 2%nat 1%nat "hi" 10 10
     = ok (insert_comment one_post_db (mkComment 1%nat 2%nat 1%nat "hi" 0),
           mkComment 1%nat 2%nat 1%nat "hi" 0).
Proof. repeat split. Qed.

(** C1, amended: on an existing post, a rating by a user other than the
    owner (with a valid value) and a comment whose text the field accepts
    (once stripped of surrounding whitespace it is not empty, has at most
    256 characters and holds no null or surrogate character) fail with the
    "expired" error when the expiry date is strictly before the clock read
    by validation; when the clock is at or before the expiry date they
    succeed, the rating provided the user has not rated the post yet, and
    the comment is stored with the stripped text.  At the instant of expiry
    itself the call is accepted. *)
Theorem C1_expiry_gate db post_pk post user now_valid now_save :
  Post_objects_get db post_pk = ok post ->
  (forall data value,
      RatingSerializer.to_internal_value data = ok value ->
      user <> owner post ->
      (expiry_date post < now_valid ->
       RatingViewSet.create db user post_pk data now_valid now_save
       = raise expired) /\
      (now_valid <= expiry_date post ->
       filter_user user (rating_set db post) = [] ->
       RatingViewSet.create db user post_pk data now_valid now_save
       = ok (insert_rating db (new_rating db user post value now_save),
             new_rating db user post value now_save))) /\
  (forall text,
      ~ bad_text 256 text ->
      (expiry_date post < now_valid ->
       CommentViewSet.create db user post_pk text now_valid now_save
       = raise expired) /\
      (now_valid <= expiry_date post ->
       CommentViewSet.create db user post_pk text now_valid now_save
       = ok (insert_comment db (new_comment db user post (strip text) now_save),
             new_comment db user post (strip text) now_save))).
Proof.
  intros Hp. split.
  - intros data value Hv Hu.
    rewrite (rating_create_found _ _ _ _ _ now_valid now_save _ Hv Hp).
    apply Nat.eqb_neq in Hu. rewrite Hu.
    split.
    + intros Hlt. apply Z.ltb_lt in Hlt. rewrite Hlt. reflexivity.
    + intros Hle Hnone. apply Z.ltb_ge in Hle. rewrite Hle, Hnone. reflexivity.
  - intros text Hgood.
    rewrite (comment_create_found _ _ _ _ now_valid now_save _
               (CharField_accepts "comment" 256 text Hgood) Hp).
    split.
    + intros Hlt. apply Z.ltb_lt in Hlt. rewrite Hlt. reflexivity.
    + intros Hle. apply Z.ltb_ge in Hle. rewrite Hle. reflexivity.
Qed.

Lemma C1_expiry_gate_witness :
  RatingViewSet.create one_post_db 2%nat 1%nat (Some "DISLIKE") 10 11
  = ok (insert_rating one_post_db
          (new_rating one_post_db 2%nat the_post (Some DISLIKE) 11),
        new_rating one_post_db 2%nat the_post (Some DISLIKE) 11)
  /\ CommentViewSet.create one_post_db 1%nat 1%nat "late" 11 11 = raise expired.
Proof.
  pose proof (C1_expiry_gate one_post_db 1%nat the_post 2%nat 10 11 eq_refl) as R.
  pose proof (C1_expiry_gate one_post_db 1%nat the_post 1%nat 11 11 eq_refl) as C.
  split.
  - apply (proj1 R (Some "DISLIKE") (Some DISLIKE) eq_refl).
    + discriminate.
    + simpl; lia.
    + reflexivity.
  - apply (proj2 C "late" (CharField_good "comment" 256 "late" eq_refl)).
    simpl; lia.
Defined.

(** ** C6: the status of a post and the status filter *)

(** C6 as stated is false: at the instant of expiry ([now] equal to the
    expiry date, so not [now < expiry]) the post is still reported Live, and
    the live filter still returns it. *)
Lemma C6_live_at_expiry :
  expiry_date the_post = 10
  /\ PostSerializer.get_status the_post 10 = "Live"
  /\ PostViewSet.get_queryset (B := ties_in_order) one_post_db "tech"
       (Some "live") None 10 = [the_post]
  /\ PostViewSet.get_queryset (B := ties_in_order) one_post_db "tech"
       (Some "expired") None 10 = [].
Proof. repeat split. Qed.

(** C6, amended: the status depends on the post and the clock only; it is
    Live exactly when the clock is at or before the expiry date and Expired
    exactly when the expiry date is strictly before the clock, so at the
    instant of expiry the post is Live.  The status filter keeps exactly the
    posts of the topic whose status, so defined, is the one asked for. *)
Theorem C6_status {B : Backend} (db : Database) (topic_pk : Topic) (now : datetime) :
  (forall p, PostSerializer.get_status p now = PostSerializer.LIVE
             <-> now <= expiry_date p) /\
  (forall p, PostSerializer.get_status p now = PostSerializer.EXPIRED
             <-> expiry_date p < now) /\
  PostViewSet.get_queryset db topic_pk (Some "live") None now
  = filter (fun p => String.eqb (PostSerializer.get_status p now) PostSerializer.LIVE)
           (PostViewSet.get_queryset db topic_pk None None now) /\
  PostViewSet.get_queryset db topic_pk (Some "expired") None now
  = filter (fun p => String.eqb (PostSerializer.get_status p now) PostSerializer.EXPIRED)
           (PostViewSet.get_queryset db topic_pk None None now).
Proof.
  unfold PostSerializer.get_status.
  repeat split.
  - destruct (Z.ltb_spec (expiry_date p) now); [discriminate | lia].
  - destruct (Z.ltb_spec (expiry_date p) now); [lia | reflexivity].
  - destruct (Z.ltb_spec (expiry_date p) now); [lia | discriminate].
  - destruct (Z.ltb_spec (expiry_date p) now); [reflexivity | lia].
  - unfold PostViewSet.get_queryset. simpl.
    apply filter_ext. intros p.
    rewrite Z.geb_leb.
    destruct (Z.ltb_spec (expiry_date p) now);
      destruct (Z.leb_spec now (expiry_date p)); try lia; reflexivity.
  - unfold PostViewSet.get_queryset. simpl.
    apply filter_ext. intros p.
    destruct (expiry_date p <? now); reflexivity.
Qed.

(** ** C5: the order of the checks of a rating request *)

Lemma Post_objects_get_cases db post_pk :
  Post_objects_get db post_pk = raise DoesNotExist
  \/ exists post, Post_objects_get db post_pk = ok post.
Proof.
  unfold Post_objects_get.
  destruct (find _ _) as [p |]; [right; exists p | left]; reflexivity.
Qed.

(** C5: a rating request with a well-formed value is checked in a fixed
    order, and the first check that fails decides the error: the post must
    exist; then the requester must not be the owner; then the post must not
    be expired; then the requester must not have rated it already.  So the
    owner gets the self-rating error whatever the clock and whatever ratings
    exist, an expired post gives "expired" to a non-owner whatever ratings
    exist, and only a request that passes all four is stored. *)
Theorem C5_rating_check_order db user post_pk data value now_valid now_save :
  RatingSerializer.to_internal_value data = ok value ->
  let outcome := RatingViewSet.create db user post_pk data now_valid now_save in
  (Post_objects_get db post_pk = raise DoesNotExist ->
   outcome = raise DoesNotExist) /\
  (forall post,
      Post_objects_get db post_pk = ok post ->
      (user = owner post -> outcome = raise self_rating) /\
      (user <> owner post -> expiry_date post < now_valid ->
       outcome = raise expired) /\
      (user <> owner post -> now_valid <= expiry_date post ->
       filter_user user (rating_set db post) <> [] ->
       outcome = raise already_rated) /\
      (user <> owner post -> now_valid <= expiry_date post ->
       filter_user user (rating_set db post) = [] ->
       outcome = ok (insert_rating db (new_rating db user post value now_save),
                     new_rating db user post value now_save))).
Proof.
  intros Hv outcome. subst outcome. split.
  - intros Hp. unfold RatingViewSet.create, RatingSerializer.validate.
    rewrite Hv, bind_ok, Hp. reflexivity.
  - intros post Hp.
    rewrite (rating_create_found _ _ _ _ _ now_valid now_save _ Hv Hp).
    repeat split.
    + intros ->. rewrite Nat.eqb_refl. reflexivity.
    + intros Hu Hlt. apply Nat.eqb_neq in Hu. apply Z.ltb_lt in Hlt.
      rewrite Hu, Hlt. reflexivity.
    + intros Hu Hle Hsome. apply Nat.eqb_neq in Hu. apply Z.ltb_ge in Hle.
      rewrite Hu, Hle.
      destruct (count _ =? 0) eqn:E; [| reflexivity].
      apply count_zero_nil in E. contradiction.
    + intros Hu Hle Hnone. apply Nat.eqb_neq in Hu. apply Z.ltb_ge in Hle.
      rewrite Hu, Hle, Hnone. reflexivity.
Qed.

(** The post of the fixture, already rated by user 1 (its owner) and by
    user 2. *)
Definition rated_db : Database :=
  mkDatabase (map fst Topic.TYPES) [the_post] [(1%nat, "tech")]
             [mkRating 1%nat 1%nat 1%nat LIKE 5; mkRating 2%nat 2%nat 1%nat LIKE 4] [].

Lemma C5_rating_check_order_witness :
  RatingViewSet.create rated_db 1%nat 1%nat (Some "LIKE") 20 20 = raise self_rating
  /\ RatingViewSet.create rated_db 2%nat 1%nat (Some "LIKE") 20 20 = raise expired
  /\ RatingViewSet.create rated_db 2%nat 1%nat (Some "LIKE") 7 7 = raise already_rated
  /\ RatingViewSet.create rated_db 2%nat 9%nat (Some "LIKE") 7 7 = raise DoesNotExist.
Proof.
  pose proof (fun user post_pk now =>
                C5_rating_check_order rated_db user post_pk (Some "LIKE")
                  (Some LIKE) now now eq_refl) as O.
  cbv zeta in O.
  split; [| split; [| split]].
  - apply (proj2 (O 1%nat 1%nat 20) the_post eq_refl). reflexivity.
  - apply (proj2 (O 2%nat 1%nat 20) the_post eq_refl); [discriminate | simpl; lia].
  - apply (proj2 (O 2%nat 1%nat 7) the_post eq_refl);
      [discriminate | simpl; lia | discriminate].
  - apply (proj1 (O 2%nat 9%nat 7)). reflexivity.
Defined.

(** ** C9: the default value of a rating *)

(** C9: a rating request that carries no value, made on an existing post
    that has not expired by a user who is not its owner and has not rated
    it, succeeds and stores a rating whose value is LIKE. *)
Theorem C9_default_like db user post_pk post now_valid now_save :
  Post_objects_get db post_pk = ok post ->
  user <> owner post ->
  now_valid <= expiry_date post ->
  filter_user user (rating_set db post) = [] ->
  exists db' r,
    RatingViewSet.create db user post_pk None now_valid now_save = ok (db', r)
    /\ rating r = LIKE
    /\ rating_user r = user
    /\ rating_post r = post_id post
    /\ rating_table db' = rating_table db ++ [r].
Proof.
  intros Hp Hu Hle Hnone.
  exists (insert_rating db (new_rating db user post None now_save)),
         (new_rating db user post None now_save).
  rewrite (rating_create_found db user post_pk None None now_valid now_save post
             eq_refl Hp).
  apply Nat.eqb_neq in Hu. apply Z.ltb_ge in Hle.
  rewrite Hu, Hle, Hnone. repeat split.
Qed.

Lemma C9_default_like_witness :
  exists db' r,
    RatingViewSet.create one_post_db 2%nat 1%nat None 3 3 = ok (db', r)
    /\ rating r = LIKE
    /\ rating_user r = 2%nat
    /\ rating_post r = post_id the_post
    /\ rating_table db' = rating_table one_post_db ++ [r].
Proof.
  apply (C9_default_like one_post_db 2%nat 1%nat the_post 3 3 eq_refl).
  - discriminate.
  - simpl; lia.
  - reflexivity.
Defined.

(** ** C10: the length limit of a comment *)

(** A text of [n] letters, and one of [n] spaces. *)
Fixpoint letters (n : nat) : text :=
  match n with
  | O => []
  | S n => 97%N :: letters n
  end.






(** ** What one call writes *)

Lemma Post_objects_get_found db post_pk post :
  Post_objects_get db post_pk = ok post ->
  post_id post = post_pk /\ In post (post_table db).
Proof.
  unfold Post_objects_get.
  destruct (find _ _) as [p |] eqn:F; [| discriminate].
  intros E; injection E as <-.
  apply find_some in F. destruct F as [Hin Hid].
  apply Nat.eqb_eq in Hid. split; assumption.
Qed.

Lemma find_app_found {A} (f : A -> bool) (l l' : list A) (a : A) :
  find f l = Some a -> find f (l ++ l') = Some a.
Proof.
  induction l as [| x l IH]; simpl; [discriminate |].
  destruct (f x); [trivial | exact IH].
Qed.

Lemma Post_objects_get_app db db' post_pk post suffix :
  post_table db' = post_table db ++ suffix ->
  Post_objects_get db post_pk = ok post ->
  Post_objects_get db' post_pk = ok post.
Proof.
  unfold Post_objects_get. intros ->.
  destruct (find _ (post_table db)) as [p |] eqn:F; [| discriminate].
  intros E. rewrite (find_app_found _ _ suffix _ F). exact E.
Qed.

Lemma rating_create_ok db user post_pk data now_valid now_save db' r :
  RatingViewSet.create db user post_pk data now_valid now_save = ok (db', r) ->
  exists value post,
    RatingSerializer.to_internal_value data = ok value
    /\ Post_objects_get db post_pk = ok post
    /\ user <> owner post
    /\ now_valid <= expiry_date post
    /\ filter_user user (rating_set db post) = []
    /\ r = new_rating db user post value now_save
    /\ db' = insert_rating db r.
Proof.
  intros E.
  destruct (RatingSerializer.to_internal_value data) as [e | value] eqn:Hv.
  { unfold RatingViewSet.create in E. rewrite Hv in E. discriminate E. }
  destruct (Post_objects_get_cases db post_pk) as [Hp | [post Hp]].
  { unfold RatingViewSet.create, RatingSerializer.validate in E.
    rewrite Hv, bind_ok, Hp in E. discriminate E. }
  rewrite (rating_create_found _ _ _ _ _ now_valid now_save _ Hv Hp) in E.
  exists value, post.
  destruct (Nat.eqb_spec user (owner post)) as [| Hu]; [discriminate E |].
  destruct (Z.ltb_spec (expiry_date post) now_valid) as [| Hle]; [discriminate E |].
  destruct (count _ =? 0) eqn:Hc; simpl in E; [| discriminate E].
  apply count_zero_nil in Hc.
  injection E as <- <-. repeat split; assumption.
Qed.

Lemma comment_create_ok db user post_pk text now_valid now_save db' c :
  CommentViewSet.create db user post_pk text now_valid now_save = ok (db', c) ->
  exists post,
    CharField "comment" 256 text = []
    /\ Post_objects_get db post_pk = ok post
    /\ now_valid <= expiry_date post
    /\ c = new_comment db user post (strip text) now_save
    /\ db' = insert_comment db c.
Proof.
  intros E.
  destruct (CharField "comment" 256 text) as [| err errs] eqn:Hv.
  2:{ unfold CommentViewSet.create, CommentSerializer.to_internal_value in E.
      rewrite Hv in E. discriminate E. }
  destruct (Post_objects_get_cases db post_pk) as [Hp | [post Hp]].
  { unfold CommentViewSet.create, CommentSerializer.to_internal_value,
      CommentSerializer.validate in E.
    rewrite Hv, bind_ok, Hp in E. discriminate E. }
  rewrite (comment_create_found _ _ _ _ now_valid now_save _ Hv Hp) in E.
  exists post.
  destruct (Z.ltb_spec (expiry_date post) now_valid) as [| Hle]; [discriminate E |].
  injection E as <- <-. repeat split; assumption.
Qed.

(** Adding topics to a post touches the join table only. *)
Lemma topics_add_tables post topics db :
  let db' := fold_left (fun db topic => topics_add db post topic) topics db in
  topic_table db' = topic_table db
  /\ post_table db' = post_table db
  /\ rating_table db' = rating_table db
  /\ comment_table db' = comment_table db.
Proof.
  revert db. induction topics as [| t topics IH]; intros db; simpl.
  - repeat split.
  - destruct (IH (topics_add db post t)) as (T & P & R & C).
    rewrite T, P, R, C. unfold topics_add.
    destruct (existsb _ _); repeat split.
Qed.

Lemma post_create_tables db user now data :
  let db' := fst (PostSerializer.create db user now data) in
  let post := snd (PostSerializer.create db user now data) in
  topic_table db' = topic_table db
  /\ post_table db' = post_table db ++ [post]
  /\ rating_table db' = rating_table db
  /\ comment_table db' = comment_table db.
Proof.
  unfold PostSerializer.create; simpl fst; simpl snd.
  match goal with
  | |- context [fold_left _ ?ts (insert_post db ?p)] =>
      destruct (topics_add_tables p ts (insert_post db p)) as (T & P & R & C)
  end.
  rewrite T, P, R, C. repeat split.
Qed.

(** The writes a call can make: none; one rating, after its four checks;
    one comment, after its checks; one post with its topics. *)
Inductive step (db : Database) : Call -> Database -> Prop :=
| step_nothing c : step db c db
| step_rating user post_pk data value post now_valid now_save :
    RatingSerializer.to_internal_value data = ok value ->
    Post_objects_get db post_pk = ok post ->
    user <> owner post ->
    now_valid <= expiry_date post ->
    filter_user user (rating_set db post) = [] ->
    step db (mkCall (POST_ratings user post_pk data) now_valid now_save)
         (insert_rating db (new_rating db user post value now_save))
| step_comment user post_pk text post now_valid now_save :
    CharField "comment" 256 text = [] ->
    Post_objects_get db post_pk = ok post ->
    now_valid <= expiry_date post ->
    step db (mkCall (POST_comments user post_pk text) now_valid now_save)
         (insert_comment db (new_comment db user post (strip text) now_save))
| step_post user data validated_data now_valid now_save :
    step db (mkCall (POST_posts user data) now_valid now_save)
         (fst (PostSerializer.create db user now_save validated_data)).

Lemma handle_step db c : step db c (handle db c).
Proof.
  destruct c as [[user data | user post_pk data | user post_pk text | | |] nv ns];
    unfold handle; simpl; try apply step_nothing.
  - destruct (PostViewSet.create db user data nv ns) as [e | [db' p]] eqn:E;
      [apply step_nothing |].
    unfold PostViewSet.create in E.
    apply bind_inr in E. destruct E as (vd & _ & E).
    assert (E' : PostSerializer.create db user ns vd = (db', p))
      by (unfold ok in E; congruence).
    replace db' with (fst (PostSerializer.create db user ns vd))
      by (rewrite E'; reflexivity).
    apply step_post.
  - destruct (RatingViewSet.create db user post_pk data nv ns) as [e | [db' r]] eqn:E;
      [apply step_nothing |].
    apply rating_create_ok in E.
    destruct E as (value & post & Hv & Hp & Hu & Hle & Hnone & -> & ->).
    apply step_rating; assumption.
  - destruct (CommentViewSet.create db user post_pk text nv ns) as [e | [db' c]] eqn:E;
      [apply step_nothing |].
    apply comment_create_ok in E.
    destruct E as (post & Hv & Hp & Hle & -> & ->).
    apply step_comment; assumption.
Qed.

(** Every table only grows at its end, and the topics do not change. *)
Definition extends (db db' : Database) : Prop :=
  topic_table db' = topic_table db
  /\ (exists ps, post_table db' = post_table db ++ ps)
  /\ (exists rs, rating_table db' = rating_table db ++ rs)
  /\ (exists cs, comment_table db' = comment_table db ++ cs).

Lemma extends_refl db : extends db db.
Proof.
  repeat split; exists []; rewrite app_nil_r; reflexivity.
Qed.

Lemma extends_trans db1 db2 db3 :
  extends db1 db2 -> extends db2 db3 -> extends db1 db3.
Proof.
  intros (T & [ps P] & [rs R] & [cs C]) (T' & [ps' P'] & [rs' R'] & [cs' C']).
  repeat split.
  - congruence.
  - exists (ps ++ ps'). rewrite P', P, app_assoc. reflexivity.
  - exists (rs ++ rs'). rewrite R', R, app_assoc. reflexivity.
  - exists (cs ++ cs'). rewrite C', C, app_assoc. reflexivity.
Qed.

Lemma step_extends db c db' : step db c db' -> extends db db'.
Proof.
  intros S. destruct S.
  - apply extends_refl.
  - repeat split; simpl; try (exists []; rewrite app_nil_r; reflexivity).
    eexists; reflexivity.
  - repeat split; simpl; try (exists []; rewrite app_nil_r; reflexivity).
    eexists; reflexivity.
  - destruct (post_create_tables db user now_save validated_data) as (T & P & R & C).
    repeat split.
    + exact T.
    + eexists; exact P.
    + exists []; rewrite app_nil_r; exact R.
    + exists []; rewrite app_nil_r; exact C.
Qed.

Lemma run_extends calls db : extends db (run db calls).
Proof.
  unfold run. revert db. induction calls as [| c calls IH]; intros db; simpl.
  - apply extends_refl.
  - eapply extends_trans; [| apply IH].
    apply (step_extends db c), handle_step.
Qed.

(** ** C7: the time left is computed once and kept *)

(** C7: a stored rating or comment carries the expiry date of its post minus
    the clock read when the row is saved; and whatever calls follow (posts,
    ratings, comments, listings, accepted or refused), every row of the
    rating and comment tables stays where it is, field for field: the tables
    only grow at the end. *)
Theorem C7_time_left_frozen :
  (forall db user post_pk data now_valid now_save db' r,
      RatingViewSet.create db user post_pk data now_valid now_save = ok (db', r) ->
      (exists post,
          Post_objects_get db post_pk = ok post
          /\ rating_time_left_until_post_expiry r = expiry_date post - now_save)
      /\ forall calls, exists rs,
          rating_table (run db' calls) = rating_table db ++ r :: rs) /\
  (forall db user post_pk text now_valid now_save db' c,
      CommentViewSet.create db user post_pk text now_valid now_save = ok (db', c) ->
      (exists post,
          Post_objects_get db post_pk = ok post
          /\ comment_time_left_until_post_expiry c = expiry_date post - now_save)
      /\ forall calls, exists cs,
          comment_table (run db' calls) = comment_table db ++ c :: cs) /\
  (forall db calls, exists rs cs,
      rating_table (run db calls) = rating_table db ++ rs
      /\ comment_table (run db calls) = comment_table db ++ cs).
Proof.
  split; [| split].
  - intros db user post_pk data nv ns db' r E.
    apply rating_create_ok in E.
    destruct E as (value & post & _ & Hp & _ & _ & _ & -> & ->).
    split.
    + exists post. split; [exact Hp | reflexivity].
    + intros calls.
      destruct (run_extends calls (insert_rating db (new_rating db user post value ns)))
        as (_ & _ & [rs R] & _).
      exists rs. rewrite R. simpl. rewrite <- app_assoc. reflexivity.
  - intros db user post_pk text nv ns db' c E.
    apply comment_create_ok in E.
    destruct E as (post & _ & Hp & _ & -> & ->).
    split.
    + exists post. split; [exact Hp | reflexivity].
    + intros calls.
      destruct (run_extends calls
                  (insert_comment db (new_comment db user post (strip text) ns)))
        as (_ & _ & _ & [cs C]).
      exists cs. rewrite C. simpl. rewrite <- app_assoc. reflexivity.
  - intros db calls.
    destruct (run_extends calls db) as (_ & _ & [rs R] & [cs C]).
    exists rs, cs. split; assumption.
Qed.

(** ** C8: nobody rates their own post *)

Definition rated_by_others (db : Database) : Prop :=
  forall r, In r (rating_table db) ->
    exists post, Post_objects_get db (rating_post r) = ok post
                 /\ rating_user r <> owner post.

Lemma Post_objects_get_same_posts db db' post_pk :
  post_table db' = post_table db ->
  Post_objects_get db' post_pk = Post_objects_get db post_pk.
Proof.
  unfold Post_objects_get. intros ->. reflexivity.
Qed.

Lemma step_rated_by_others db c db' :
  step db c db' -> rated_by_others db -> rated_by_others db'.
Proof.
  intros S I. destruct S as [c | user post_pk data value post nv ns Hv Hp Hu Hle Hnone
                            | user post_pk text post nv ns Hv Hp Hle
                            | user data vd nv ns].
  - exact I.
  - intros r Hr. simpl in Hr. apply in_app_or in Hr.
    rewrite (Post_objects_get_same_posts db) by reflexivity.
    destruct Hr as [Hr | [<- | []]].
    + apply I, Hr.
    + exists post. simpl.
      destruct (Post_objects_get_found _ _ _ Hp) as [-> _].
      split; assumption.
  - intros r Hr. simpl in Hr.
    rewrite (Post_objects_get_same_posts db) by reflexivity.
    apply I, Hr.
  - destruct (post_create_tables db user ns vd) as (_ & P & R & _).
    intros r Hr. rewrite R in Hr.
    destruct (I r Hr) as (post & Hp & Hu).
    exists post. split; [| exact Hu].
    eapply Post_objects_get_app; [exact P | exact Hp].
Qed.

Lemma run_rated_by_others calls db :
  rated_by_others db -> rated_by_others (run db calls).
Proof.
  unfold run. revert db. induction calls as [| c calls IH]; intros db I; simpl.
  - exact I.
  - apply IH. apply (step_rated_by_others db c), I. apply handle_step.
Qed.

(** C8: in every state reached from an installation without posts, by any
    calls at any times, each stored rating is by a user other than the owner
    of the rated post; and in any state at all a rating request by the owner
    of the post is refused and writes nothing, whatever its value, the clock
    and the ratings that exist, with the self-rating error when the value is
    well formed. *)
Theorem C8_owner_never_rates :
  (forall topics calls r,
      In r (rating_table (run (empty_database topics) calls)) ->
      exists post,
        Post_objects_get (run (empty_database topics) calls) (rating_post r) = ok post
        /\ rating_user r <> owner post) /\
  (forall db post_pk post data now_valid now_save,
      Post_objects_get db post_pk = ok post ->
      (exists e, RatingViewSet.create db (owner post) post_pk data now_valid now_save
                 = raise e)
      /\ (forall value, RatingSerializer.to_internal_value data = ok value ->
            RatingViewSet.create db (owner post) post_pk data now_valid now_save
            = raise self_rating)
      /\ handle db (mkCall (POST_ratings (owner post) post_pk data) now_valid now_save)
         = db).
Proof.
  split.
  - intros topics calls. apply run_rated_by_others.
    intros r [].
  - intros db post_pk post data nv ns Hp.
    assert (Hself : forall value,
               RatingSerializer.to_internal_value data = ok value ->
               RatingViewSet.create db (owner post) post_pk data nv ns
               = raise self_rating).
    { intros value Hv.
      rewrite (rating_create_found _ _ _ _ _ nv ns _ Hv Hp).
      rewrite Nat.eqb_refl. reflexivity. }
    assert (Hrej : exists e,
               RatingViewSet.create db (owner post) post_pk data nv ns = raise e).
    { destruct (RatingSerializer.to_internal_value data) as [e | value] eqn:Hv.
      - exists e. unfold RatingViewSet.create. rewrite Hv. reflexivity.
      - exists self_rating. apply (Hself value eq_refl). }
    split; [exact Hrej | split; [exact Hself |]].
    destruct Hrej as [e He].
    unfold handle; simpl. rewrite He. reflexivity.
Qed.

(** ** C2: one rating per post and user *)

Definition rated_once (db : Database) : Prop :=
  forall post_pk user,
    (List.length (filter_user user (RatingViewSet.get_queryset db post_pk)) <= 1)%nat.

Lemma rating_set_get_queryset db post :
  rating_set db post = RatingViewSet.get_queryset db (post_id post).
Proof. reflexivity. Qed.

Lemma step_rated_once db c db' : step db c db' -> rated_once db -> rated_once db'.
Proof.
  intros S I. destruct S as [c | user post_pk data value post nv ns Hv Hp Hu Hle Hnone
                            | user post_pk text post nv ns Hv Hp Hle
                            | user data vd nv ns].
  - exact I.
  - intros pk' user'. specialize (I pk' user').
    unfold RatingViewSet.get_queryset, filter_user in *. simpl rating_table.
    rewrite !filter_app, length_app. simpl.
    destruct (Nat.eqb_spec (post_id post) pk') as [<- | Hpk]; simpl; [| lia].
    destruct (Nat.eqb_spec user user') as [<- | Hus]; simpl; [| lia].
    rewrite rating_set_get_queryset in Hnone.
    unfold RatingViewSet.get_queryset, filter_user in Hnone.
    rewrite Hnone. simpl. lia.
  - exact I.
  - destruct (post_create_tables db user ns vd) as (_ & _ & R & _).
    intros pk' user'. unfold RatingViewSet.get_queryset. rewrite R. apply I.
Qed.

Lemma run_rated_once calls db : rated_once db -> rated_once (run db calls).
Proof.
  unfold run. revert db. induction calls as [| c calls IH]; intros db I; simpl.
  - exact I.
  - apply IH. apply (step_rated_once db c), I. apply handle_step.
Qed.

(** C2 as stated is false in its last part: user 2 rates the post at 5, and
    rates it again at 20, after it expired at 10; the second request is
    refused, but as "expired", the check that comes first, not as "already
    rated". *)
Lemma C2_second_rating_after_expiry :
  RatingViewSet.create one_post_db 2%nat 1%nat (Some "LIKE") 5 5
  = ok (insert_rating one_post_db (mkRating 1%nat 2%nat 1%nat LIKE 5),
        mkRating 1%nat 2%nat 1%nat LIKE 5)
  /\ RatingViewSet.create
       (insert_rating one_post_db (mkRating 1%nat 2%nat 1%nat LIKE 5))
       2%nat 1%nat (Some "LIKE") 20 20
     = raise expired
  /\ expired <> already_rated.
Proof.
  split; [reflexivity | split; [reflexivity | discriminate]].
Qed.

(** C2, amended: in every state reached from an installation without
    ratings, by any calls in any order with any values and times, each pair
    of a post and a user has at most one rating.  Once a user has rated a
    post, every later rating request by that user on that post, after any
    calls in between, is refused and writes nothing; with a well-formed
    value its error is "already rated" when the post has not expired at that
    time, and "expired" when it has. *)
Theorem C2_one_rating_per_pair :
  (forall topics calls post_pk user,
      (List.length (filter_user user
         (RatingViewSet.get_queryset (run (empty_database topics) calls) post_pk))
       <= 1)%nat) /\
  (forall db user post_pk data now_valid now_save db1 r calls data' now_valid' now_save',
      RatingViewSet.create db user post_pk data now_valid now_save = ok (db1, r) ->
      let db2 := run db1 calls in
      (exists e, RatingViewSet.create db2 user post_pk data' now_valid' now_save'
                 = raise e)
      /\ handle db2 (mkCall (POST_ratings user post_pk data') now_valid' now_save')
         = db2
      /\ (forall value',
            RatingSerializer.to_internal_value data' = ok value' ->
            exists post,
              Post_objects_get db2 post_pk = ok post
              /\ RatingViewSet.create db2 user post_pk data' now_valid' now_save'
                 = raise (if expiry_date post <? now_valid'
                          then expired else already_rated))).
Proof.
  split.
  - intros topics calls. apply run_rated_once.
    intros post_pk user. simpl. lia.
  - intros db user post_pk data nv ns db1 r calls data' nv' ns' E db2.
    apply rating_create_ok in E.
    destruct E as (value & post & _ & Hp & Hu & _ & _ & Hr & ->).
    destruct (run_extends calls (insert_rating db r)) as (_ & [ps P] & [rs R] & _).
    fold db2 in P, R. simpl in P, R.
    assert (Hp2 : Post_objects_get db2 post_pk = ok post)
      by (eapply Post_objects_get_app; [exact P | exact Hp]).
    assert (Hin : In r (filter_user user (rating_set db2 post))).
    { unfold filter_user, rating_set. rewrite R.
      apply filter_In. split.
      - apply filter_In. split.
        + apply in_or_app. left. apply in_or_app. right. left. reflexivity.
        + rewrite Hr. simpl. apply Nat.eqb_refl.
      - rewrite Hr. simpl. apply Nat.eqb_refl. }
    assert (Hvalid : forall value',
               RatingSerializer.to_internal_value data' = ok value' ->
               RatingViewSet.create db2 user post_pk data' nv' ns'
               = raise (if expiry_date post <? nv' then expired else already_rated)).
    { intros value' Hv'.
      rewrite (rating_create_found _ _ _ _ _ nv' ns' _ Hv' Hp2).
      apply Nat.eqb_neq in Hu. rewrite Hu.
      destruct (expiry_date post <? nv'); [reflexivity |].
      destruct (count _ =? 0) eqn:Hc; [| reflexivity].
      apply count_zero_nil in Hc. rewrite Hc in Hin. destruct Hin. }
    assert (Hrej : exists e,
               RatingViewSet.create db2 user post_pk data' nv' ns' = raise e).
    { destruct (RatingSerializer.to_internal_value data') as [e | value'] eqn:Hv'.
      - exists e. unfold RatingViewSet.create. rewrite Hv'. reflexivity.
      - eexists. apply (Hvalid value' eq_refl). }
    split; [exact Hrej | split].
    + destruct Hrej as [e He]. unfold handle; simpl. rewrite He. reflexivity.
    + intros value' Hv'. exists post. split; [exact Hp2 | exact (Hvalid value' Hv')].
Qed.

(** ** C4: creating a post *)

Lemma Topic_exists_In db t : Topic_exists db t = true <-> In t (topic_table db).
Proof.
  unfold Topic_exists. rewrite existsb_exists. split.
  - intros (x & Hin & E). apply String.eqb_eq in E. subst x. exact Hin.
  - intros Hin. exists t. split; [exact Hin | apply String.eqb_refl].
Qed.

Lemma forallb_false_exists {A} (f : A -> bool) (l : list A) :
  forallb f l = false -> exists x, In x l /\ f x = false.
Proof.
  induction l as [| a l IH]; simpl; [discriminate |].
  destruct (f a) eqn:Fa; simpl.
  - intros E. destruct (IH E) as (x & Hin & Fx). exists x. split; [right |]; assumption.
  - intros _. exists a. split; [left; reflexivity | exact Fa].
Qed.

(** A list of topics the related field refuses. *)
Definition bad_topics (db : Database) (topics : list Topic) : Prop :=
  topics = [] \/ exists t, In t topics /\ ~ In t (topic_table db).

Lemma topics_field_cases db topics :
  (PostSerializer.topics_field db topics = [] /\ ~ bad_topics db topics)
  \/ (PostSerializer.topics_field db topics <> [] /\ bad_topics db topics).
Proof.
  unfold PostSerializer.topics_field, bad_topics.
  destruct topics as [| t0 topics].
  - right. split; [discriminate | left; reflexivity].
  - destruct (forallb (Topic_exists db) (t0 :: topics)) eqn:F.
    + left. split; [reflexivity |].
      intros [E | (t & Hin & Hno)]; [discriminate |].
      rewrite forallb_forall in F. apply Hno, Topic_exists_In, F, Hin.
    + right. split; [discriminate |]. right.
      apply forallb_false_exists in F. destruct F as (t & Hin & Ft).
      exists t. split; [exact Hin |].
      intros Hin'. apply Topic_exists_In in Hin'. congruence.
Qed.

Lemma expiry_date_field_cases value now :
  (PostSerializer.expiry_date_field value now = [] /\ now <= value)
  \/ (PostSerializer.expiry_date_field value now <> [] /\ value < now).
Proof.
  unfold PostSerializer.expiry_date_field, PostSerializer.validate_expiry_date.
  destruct (Z.ltb_spec value now) as [Hlt | Hge].
  - right. split; [discriminate | exact Hlt].
  - left. split; [reflexivity | exact Hge].
Qed.

Lemma topics_add_In db post t :
  In (post_id post, t) (post_topics (topics_add db post t)).
Proof.
  unfold topics_add.
  destruct (existsb _ _) eqn:E.
  - apply existsb_exists in E. destruct E as ([k t'] & Hin & Hrow).
    simpl in Hrow. apply andb_true_iff in Hrow. destruct Hrow as [Hk Ht].
    apply Nat.eqb_eq in Hk. apply String.eqb_eq in Ht. subst. exact Hin.
  - simpl. apply in_or_app. right. left. reflexivity.
Qed.

Lemma topics_add_keeps db post t row :
  In row (post_topics db) -> In row (post_topics (topics_add db post t)).
Proof.
  unfold topics_add. destruct (existsb _ _); [trivial |].
  simpl. intros Hin. apply in_or_app. left. exact Hin.
Qed.

Lemma topics_added post topics : forall db,
  let db' := fold_left (fun db topic => topics_add db post topic) topics db in
  (forall row, In row (post_topics db) -> In row (post_topics db'))
  /\ (forall t, In t topics -> In (post_id post, t) (post_topics db')).
Proof.
  induction topics as [| t0 topics IH]; intros db; simpl.
  - split; [trivial | intros t []].
  - destruct (IH (topics_add db post t0)) as [Keep Added]. split.
    + intros row Hin. apply Keep, topics_add_keeps, Hin.
    + intros t [<- | Hin]; [apply Keep, topics_add_In | apply Added, Hin].
Qed.

(** A request for a new post that field validation refuses. *)
Definition bad_post (db : Database) (now : datetime) (data : PostData) : Prop :=
  data_expiry_date data < now
  \/ bad_topics db (data_topics data)
  \/ bad_text 150 (data_title data)
  \/ bad_text 1000 (data_message data).

(** The validated data of an accepted request. *)
Definition stripped (data : PostData) : PostData :=
  mkPostData (strip (data_title data)) (data_topics data)
             (strip (data_message data)) (data_expiry_date data).

Lemma post_to_internal_value_cases db now data :
  (PostSerializer.to_internal_value db now data = ok (stripped data)
   /\ ~ bad_post db now data)
  \/ (PostSerializer.to_internal_value db now data
      = raise (ValidationError
                 (field_errors
                    (CharField "title" 150 (data_title data)
                     ++ PostSerializer.topics_field db (data_topics data)
                     ++ CharField "message" 1000 (data_message data)
                     ++ PostSerializer.expiry_date_field (data_expiry_date data)
                          now)))
      /\ bad_post db now data).
Proof.
  unfold PostSerializer.to_internal_value, bad_post, stripped.
  destruct (CharField_cases "title" 150 (data_title data)) as [[E1 G1] | [E1 B1]];
  destruct (topics_field_cases db (data_topics data)) as [[E2 G2] | [E2 B2]];
  destruct (CharField_cases "message" 1000 (data_message data)) as [[E3 G3] | [E3 B3]];
  destruct (expiry_date_field_cases (data_expiry_date data) now)
    as [[E4 G4] | [E4 B4]];
  try (left; rewrite E1, E2, E3, E4; split; [reflexivity |];
       intros [H | [H | [H | H]]]; [lia | contradiction ..]);
  (right; split; [| tauto];
   destruct (_ ++ _) as [| err errs] eqn:E; [| reflexivity];
   apply app_eq_nil in E; destruct E as [N1 E];
   apply app_eq_nil in E; destruct E as [N2 E];
   apply app_eq_nil in E; destruct E as [N3 N4]; congruence).
Qed.

Lemma post_create_ok db user data now_valid now_save db' post :
  PostViewSet.create db user data now_valid now_save = ok (db', post) ->
  PostSerializer.create db user now_save (stripped data) = (db', post)
  /\ ~ bad_post db now_valid data.
Proof.
  intros E. unfold PostViewSet.create in E.
  destruct (post_to_internal_value_cases db now_valid data)
    as [[Hok Good] | [Hbad _]].
  - rewrite Hok, bind_ok in E. split; [unfold ok in E; congruence | exact Good].
  - rewrite Hbad in E. discriminate E.
Qed.

(** C4 as stated is false, in both directions: a post whose expiry date
    equals the clock is accepted, and is stored with an expiry equal to its
    creation time; and a post with a future expiry and a catalog topic is
    refused when its title is longer than 150 characters. *)
Lemma C4_expiry_now_accepted_long_title_refused :
  (exists db',
      PostViewSet.create one_post_db 3%nat (mkPostData "T" ["tech"] "m" 50) 50 50
      = ok (db', mkPost 2%nat "T" "m" 3%nat 50 50))
  /\ PostViewSet.create one_post_db 3%nat
       (mkPostData (letters 151) ["tech"] "m" 60) 50 50
     = raise (ValidationError (field_errors [("title", "max_length")])).
Proof.
  split; [eexists |]; vm_compute; reflexivity.
Qed.

(** C4, amended: creating a post fails, with a validation error, exactly
    when the expiry date is strictly before the clock read by validation, or
    the list of topics is empty, or one of the topics is not a row of the
    topic table, or the title or the message is refused by its field: once
    stripped of surrounding whitespace it is empty, or longer than 150
    (title) or 1000 (message) characters, or holds a null or surrogate
    character.  An expiry date equal to the clock is accepted.  Every other
    request succeeds: the post is stored with the clock of the save as
    creation time, the requester as owner, the stripped title and message
    and the given expiry date; it is joined to every given topic and listed
    under each of them, and ratings and comments are untouched. *)
Theorem C4_post_create db user data now_valid now_save :
  ((exists d, PostViewSet.create db user data now_valid now_save
              = raise (ValidationError d))
   <-> bad_post db now_valid data) /\
  (~ bad_post db now_valid data ->
   PostViewSet.create db user data now_valid now_save
   = ok (PostSerializer.create db user now_save (stripped data))) /\
  (forall db' post,
      PostViewSet.create db user data now_valid now_save = ok (db', post) ->
      post_id post = next_pk (post_table db)
      /\ date_created post = now_save
      /\ owner post = user
      /\ expiry_date post = data_expiry_date data
      /\ title post = strip (data_title data)
      /\ message post = strip (data_message data)
      /\ post_table db' = post_table db ++ [post]
      /\ (forall t, In t (data_topics data) ->
                    In (post_id post, t) (post_topics db')
                    /\ In post (PostViewSet.filter_topics db' t))
      /\ rating_table db' = rating_table db
      /\ comment_table db' = comment_table db).
Proof.
  split; [| split].
  - unfold PostViewSet.create.
    destruct (post_to_internal_value_cases db now_valid data)
      as [[Hok Good] | [Hbad Bad]].
    + rewrite Hok, bind_ok. split; [intros [d Hd]; discriminate Hd | contradiction].
    + rewrite Hbad. split; [intros _; exact Bad | intros _; eexists; reflexivity].
  - intros Good. unfold PostViewSet.create.
    destruct (post_to_internal_value_cases db now_valid data)
      as [[Hok _] | [_ Bad]]; [| contradiction].
    rewrite Hok, bind_ok. reflexivity.
  - intros db' post E.
    apply post_create_ok in E. destruct E as [E' _].
    destruct (post_create_tables db user now_save (stripped data)) as (_ & P & R & C).
    rewrite E' in P, R, C. simpl in P, R, C.
    assert (Hpost : post = mkPost (next_pk (post_table db))
                                  (strip (data_title data))
                                  (strip (data_message data)) user now_save
                                  (data_expiry_date data))
      by (unfold PostSerializer.create in E'; simpl in E'; congruence).
    assert (Hjoin : forall t, In t (data_topics data) ->
                              In (post_id post, t) (post_topics db')).
    { unfold PostSerializer.create in E'.
      injection E' as Hdb _. rewrite <- Hdb, Hpost.
      apply (topics_added _ (data_topics data)). }
    repeat split; try (rewrite Hpost; reflexivity); try assumption.
    + apply Hjoin; assumption.
    + unfold PostViewSet.filter_topics. apply filter_In. split.
      * rewrite P. apply in_or_app. right. left. reflexivity.
      * apply existsb_exists. exists (post_id post, t). split.
        -- apply Hjoin; assumption.
        -- simpl. rewrite Nat.eqb_refl, String.eqb_refl. reflexivity.
Qed.

(** ** C3: the post of highest or lowest interest *)

Lemma order_by_first {B : Backend} (key : Post -> Z) (l : list Post) :
  l <> [] ->
  exists p, firstn 1 (order_by key l) = [p]
            /\ In p l
            /\ forall q, In q l -> key p <= key q.
Proof.
  intros Hne.
  pose proof (order_by_Permutation key l) as P.
  pose proof (order_by_Sorted key l) as S.
  destruct (order_by key l) as [| p sorted].
  - apply Permutation_sym, Permutation_nil in P. contradiction.
  - exists p. split; [reflexivity | split].
    + apply (Permutation_in _ (Permutation_sym P)). left. reflexivity.
    + intros q Hq. apply (Permutation_in _ P) in Hq.
      inversion S as [| ? ? _ Hall]; subst.
      destruct Hq as [<- | Hq]; [lia |].
      rewrite Forall_forall in Hall. apply Hall, Hq.
Qed.

Lemma order_by_nil {B : Backend} (key : Post -> Z) : order_by key [] = [].
Proof.
  apply Permutation_nil, order_by_Permutation.
Qed.

Lemma get_queryset_highest {B : Backend} db topic_pk status now :
  PostViewSet.get_queryset db topic_pk status (Some "highest") now
  = firstn 1 (order_by (fun p => - PostViewSet.num_ratings db p)
                       (PostViewSet.get_queryset db topic_pk status None now)).
Proof. reflexivity. Qed.

Lemma get_queryset_lowest {B : Backend} db topic_pk status now :
  PostViewSet.get_queryset db topic_pk status (Some "lowest") now
  = firstn 1 (order_by (fun p => PostViewSet.num_ratings db p)
                       (PostViewSet.get_queryset db topic_pk status None now)).
Proof. reflexivity. Qed.

(** A second post under tech, created after the first; neither is rated. *)
Definition second_post : Post := mkPost 2%nat "Q" "again" 1%nat 1 10.

Definition two_posts_db : Database :=
  mkDatabase (map fst Topic.TYPES) [the_post; second_post]
             [(1%nat, "tech"); (2%nat, "tech")] [] [].

(** *** The engine that keeps equal rows in table order *)








(** The tie of the fixture: neither post is rated, and the query answers
    with the first. *)
Example tie_goes_to_the_earlier_post :
  PostViewSet.get_queryset (B := ties_in_order) two_posts_db "tech" None
    (Some "highest") 5 = [the_post]
  /\ PostViewSet.get_queryset (B := ties_in_order) two_posts_db "tech" None
       (Some "lowest") 5 = [the_post].
Proof. split; reflexivity. Qed.


(** Whatever the order the database gives to equal rows, the query returns
    nothing for no posts and otherwise one post of extreme number of
    ratings. *)
Lemma any_engine_returns_an_extreme {B : Backend} db topic_pk status now :
  let posts := PostViewSet.get_queryset db topic_pk status None now in
  let highest := PostViewSet.get_queryset db topic_pk status (Some "highest") now in
  let lowest := PostViewSet.get_queryset db topic_pk status (Some "lowest") now in
  (posts = [] -> highest = [] /\ lowest = []) /\
  (posts <> [] ->
   (exists p, highest = [p] /\ In p posts
              /\ forall q, In q posts ->
                   PostViewSet.num_ratings db q <= PostViewSet.num_ratings db p) /\
   (exists p, lowest = [p] /\ In p posts
              /\ forall q, In q posts ->
                   PostViewSet.num_ratings db p <= PostViewSet.num_ratings db q)).
Proof.
  intros posts highest lowest. subst highest lowest.
  rewrite get_queryset_highest, get_queryset_lowest. fold posts.
  split.
  - intros ->. rewrite !order_by_nil. split; reflexivity.
  - intros Hne. split.
    + destruct (order_by_first (fun p => - PostViewSet.num_ratings db p) posts Hne)
        as (p & Hfirst & Hin & Hmax).
      exists p. split; [exact Hfirst | split; [exact Hin |]].
      intros q Hq. specialize (Hmax q Hq). simpl in Hmax. lia.
    + destruct (order_by_first (fun p => PostViewSet.num_ratings db p) posts Hne)
        as (p & Hfirst & Hin & Hmin).
      exists p. split; [exact Hfirst | split; [exact Hin |]].
      intros q Hq. apply Hmin, Hq.
Qed.

(** ** Validation and saving are separate steps *)

(** The one-rating rule rests on [validate] alone: [create] stores whatever
    it is given, and the model declares no uniqueness on (post, user).  Two
    requests of user 2 that are both validated against the same database
    before either is saved leave two ratings of the post. *)
Example two_validated_requests_store_two_ratings :
  RatingSerializer.validate one_post_db 2%nat 1%nat 3 (Some LIKE) = ok (Some LIKE)
  /\ exists db1 r1 db2 r2,
       RatingSerializer.create one_post_db 2%nat 1%nat 3 (Some LIKE) = ok (db1, r1)
       /\ RatingSerializer.create db1 2%nat 1%nat 4 (Some LIKE) = ok (db2, r2)
       /\ List.length (filter_user 2%nat (RatingViewSet.get_queryset db2 1%nat))
          = 2%nat.
Proof.
  split; [reflexivity |].
  do 4 eexists. split; [reflexivity | split; reflexivity].
Qed.

(** ** A session *)

(** Time in minutes.  User 1 posts under tech at 0 with expiry at 60; user 2
    likes it at 10 and tries again at 20; user 1 tries to rate it at 25;
    user 3 tries at 61; user 3 comments at 30. *)
Definition session : list Call :=
  [ mkCall (POST_posts 1%nat (mkPostData "P" ["tech"] "hello" 60)) 0 0;
    mkCall (POST_ratings 2%nat 1%nat (Some "LIKE")) 10 10;
    mkCall (POST_ratings 2%nat 1%nat (Some "LIKE")) 20 20;
    mkCall (POST_ratings 1%nat 1%nat (Some "DISLIKE")) 25 25;
    mkCall (POST_comments 3%nat 1%nat "nice") 30 30;
    mkCall (POST_ratings 3%nat 1%nat None) 61 61 ].

Definition after_session : Database :=
  run (empty_database (map fst Topic.TYPES)) session.

Example session_tables :
  post_table after_session = [mkPost 1%nat "P" "hello" 1%nat 0 60]
  /\ post_topics after_session = [(1%nat, "tech")]
  /\ rating_table after_session = [mkRating 1%nat 2%nat 1%nat LIKE 50]
  /\ comment_table after_session = [mkComment 1%nat 3%nat 1%nat "nice" 30].
Proof. repeat split. Qed.

Example session_refusals :
  RatingViewSet.create after_session 2%nat 1%nat (Some "LIKE") 20 20
  = raise already_rated
  /\ RatingViewSet.create after_session 1%nat 1%nat (Some "DISLIKE") 25 25
     = raise self_rating
  /\ RatingViewSet.create after_session 3%nat 1%nat None 61 61 = raise expired.
Proof. repeat split. Qed.

Example session_listing :
  PostViewSet.get_queryset (B := ties_in_order) after_session "tech"
    (Some "live") None 30 = [mkPost 1%nat "P" "hello" 1%nat 0 60]
  /\ PostViewSet.get_queryset (B := ties_in_order) after_session "tech"
       (Some "live") None 90 = []
  /\ PostSerializer.get_likes after_session (mkPost 1%nat "P" "hello" 1%nat 0 60) = 1
  /\ PostSerializer.get_dislikes after_session (mkPost 1%nat "P" "hello" 1%nat 0 60) = 0.
Proof. repeat split. Qed.

(** * Further properties of the serializers and views *)

(** ** The tallies of a post *)

Lemma filter_rating_split (rs : list Rating) :
  count (filter_rating LIKE rs) + count (filter_rating DISLIKE rs) = count rs.
Proof.
  unfold count, filter_rating.
  rewrite <- Nat2Z.inj_add. f_equal.
  induction rs as [| r rs IH]; simpl; [reflexivity |].
  destruct (rating r); simpl; lia.
Qed.

(** X1: the likes and the dislikes a post displays add up to the number of
    ratings by which the interest query orders it, and neither is
    negative. *)
Theorem likes_and_dislikes_add_up (db : Database) (obj : Post) :
  PostSerializer.get_likes db obj + PostSerializer.get_dislikes db obj
  = PostViewSet.num_ratings db obj
  /\ 0 <= PostSerializer.get_likes db obj
  /\ 0 <= PostSerializer.get_dislikes db obj.
Proof.
  unfold PostSerializer.get_likes, PostSerializer.get_dislikes,
    PostViewSet.num_ratings.
  split; [apply filter_rating_split |].
  unfold count. split; lia.
Qed.

Lemma rating_set_insert db r obj :
  rating_set (insert_rating db r) obj
  = rating_set db obj
    ++ (if Nat.eqb (rating_post r) (post_id obj) then [r] else []).
Proof.
  unfold rating_set, insert_rating. simpl.
  rewrite filter_app. simpl.
  destruct (Nat.eqb (rating_post r) (post_id obj)); reflexivity.
Qed.

Lemma count_app {A} (l l' : list A) : count (l ++ l') = count l + count l'.
Proof.
  unfold count. rewrite length_app. lia.
Qed.

(** X2: an accepted rating raises the number of ratings of its post by one,
    and by one the likes or the dislikes, whichever it is; the tallies of
    every post with another key stay as they were. *)
Theorem accepted_rating_counts_once
  db user post_pk data now_valid now_save db' r :
  RatingViewSet.create db user post_pk data now_valid now_save = ok (db', r) ->
  exists post,
    Post_objects_get db post_pk = ok post
    /\ PostViewSet.num_ratings db' post = PostViewSet.num_ratings db post + 1
    /\ PostSerializer.get_likes db' post
       = PostSerializer.get_likes db post
         + (if Rate_eqb (rating r) LIKE then 1 else 0)
    /\ PostSerializer.get_dislikes db' post
       = PostSerializer.get_dislikes db post
         + (if Rate_eqb (rating r) DISLIKE then 1 else 0)
    /\ forall other,
         post_id other <> post_pk ->
         PostViewSet.num_ratings db' other = PostViewSet.num_ratings db other
         /\ PostSerializer.get_likes db' other = PostSerializer.get_likes db other
         /\ PostSerializer.get_dislikes db' other
            = PostSerializer.get_dislikes db other.
Proof.
  intros E. apply rating_create_ok in E.
  destruct E as (value & post & _ & Hp & _ & _ & _ & Hr & ->).
  destruct (Post_objects_get_found _ _ _ Hp) as [Hid _].
  assert (Hrp : rating_post r = post_id post) by (rewrite Hr; reflexivity).
  exists post. split; [exact Hp |].
  unfold PostViewSet.num_ratings, PostSerializer.get_likes,
    PostSerializer.get_dislikes.
  split; [| split; [| split]].
  - rewrite rating_set_insert, Hrp, Nat.eqb_refl, count_app. reflexivity.
  - rewrite rating_set_insert, Hrp, Nat.eqb_refl.
    unfold filter_rating. rewrite filter_app, count_app. simpl.
    destruct (Rate_eqb (rating r) LIKE); reflexivity.
  - rewrite rating_set_insert, Hrp, Nat.eqb_refl.
    unfold filter_rating. rewrite filter_app, count_app. simpl.
    destruct (Rate_eqb (rating r) DISLIKE); reflexivity.
  - intros other Hother.
    assert (Hne : Nat.eqb (rating_post r) (post_id other) = false).
    { apply Nat.eqb_neq. rewrite Hrp, Hid. auto. }
    rewrite !rating_set_insert, Hne, !app_nil_r. repeat split.
Qed.

Lemma accepted_rating_counts_once_witness :
  exists post,
    Post_objects_get one_post_db 1%nat = ok post
    /\ PostViewSet.num_ratings
         (insert_rating one_post_db (mkRating 1%nat 2%nat 1%nat DISLIKE 7)) post
       = PostViewSet.num_ratings one_post_db post + 1
    /\ PostSerializer.get_likes
         (insert_rating one_post_db (mkRating 1%nat 2%nat 1%nat DISLIKE 7)) post
       = PostSerializer.get_likes one_post_db post
         + (if Rate_eqb (rating (mkRating 1%nat 2%nat 1%nat DISLIKE 7)) LIKE
            then 1 else 0)
    /\ PostSerializer.get_dislikes
         (insert_rating one_post_db (mkRating 1%nat 2%nat 1%nat DISLIKE 7)) post
       = PostSerializer.get_dislikes one_post_db post
         + (if Rate_eqb (rating (mkRating 1%nat 2%nat 1%nat DISLIKE 7)) DISLIKE
            then 1 else 0)
    /\ forall other,
         post_id other <> 1%nat ->
         PostViewSet.num_ratings
           (insert_rating one_post_db (mkRating 1%nat 2%nat 1%nat DISLIKE 7)) other
         = PostViewSet.num_ratings one_post_db other
         /\ PostSerializer.get_likes
              (insert_rating one_post_db (mkRating 1%nat 2%nat 1%nat DISLIKE 7)) other
            = PostSerializer.get_likes one_post_db other
         /\ PostSerializer.get_dislikes
              (insert_rating one_post_db (mkRating 1%nat 2%nat 1%nat DISLIKE 7)) other
            = PostSerializer.get_dislikes one_post_db other.
Proof.
  apply (accepted_rating_counts_once one_post_db 2%nat 1%nat (Some "DISLIKE") 3 3).
  reflexivity.
Defined.

Lemma count_filter_app_le {A} (f : A -> bool) (l l' : list A) :
  count (filter f l) <= count (filter f (l ++ l')).
Proof.
  rewrite filter_app, count_app. unfold count. lia.
Qed.

(** X3: whatever calls are made, the likes, the dislikes and the number of
    ratings of a post never go down. *)
Theorem tallies_never_decrease (db : Database) (calls : list Call) (obj : Post) :
  PostSerializer.get_likes db obj <= PostSerializer.get_likes (run db calls) obj
  /\ PostSerializer.get_dislikes db obj
     <= PostSerializer.get_dislikes (run db calls) obj
  /\ PostViewSet.num_ratings db obj <= PostViewSet.num_ratings (run db calls) obj.
Proof.
  destruct (run_extends calls db) as (_ & _ & [rs R] & _).
  unfold PostSerializer.get_likes, PostSerializer.get_dislikes,
    PostViewSet.num_ratings, filter_rating, rating_set.
  rewrite R, filter_app.
  split; [| split]; try apply count_filter_app_le.
  rewrite count_app. unfold count. lia.
Qed.

(** ** The join table only grows *)

Lemma topics_add_grows db post t :
  exists rows,
    post_topics (topics_add db post t) = post_topics db ++ rows
    /\ Forall (fun row => fst row = post_id post) rows.
Proof.
  unfold topics_add. destruct (existsb _ _).
  - exists []. rewrite app_nil_r. split; [reflexivity | constructor].
  - exists [(post_id post, t)]. split; [reflexivity |].
    constructor; [reflexivity | constructor].
Qed.

Lemma topics_fold_grows post topics : forall db,
  exists rows,
    post_topics (fold_left (fun db topic => topics_add db post topic) topics db)
    = post_topics db ++ rows
    /\ Forall (fun row => fst row = post_id post) rows.
Proof.
  induction topics as [| t topics IH]; intros db; simpl.
  - exists []. rewrite app_nil_r. split; [reflexivity | constructor].
  - destruct (IH (topics_add db post t)) as (rows' & E' & F').
    destruct (topics_add_grows db post t) as (rows & E & F).
    exists (rows ++ rows'). split.
    + rewrite E', E, app_assoc. reflexivity.
    + apply Forall_app. split; assumption.
Qed.

(** The rows a call adds to the join table all carry the key of the post it
    creates. *)
Lemma step_join_grows db c db' :
  step db c db' ->
  exists rows,
    post_topics db' = post_topics db ++ rows
    /\ Forall (fun row => fst row = next_pk (post_table db)) rows.
Proof.
  intros S. destruct S;
    try (exists []; rewrite app_nil_r; split; [reflexivity | constructor]).
  unfold PostSerializer.create. simpl fst.
  match goal with
  | |- context [fold_left _ ?ts (insert_post db ?p)] =>
      destruct (topics_fold_grows p ts (insert_post db p)) as (rows & E & F)
  end.
  exists rows. split; [exact E | exact F].
Qed.

Lemma run_join_grows calls : forall db,
  exists rows, post_topics (run db calls) = post_topics db ++ rows.
Proof.
  unfold run. induction calls as [| c calls IH]; intros db; simpl.
  - exists []. rewrite app_nil_r. reflexivity.
  - destruct (IH (handle db c)) as [rows' E'].
    destruct (step_join_grows db c _ (handle_step db c)) as (rows & E & _).
    exists (rows ++ rows'). rewrite E', E, app_assoc. reflexivity.
Qed.

Lemma filter_topics_kept db calls topic_pk p :
  In p (PostViewSet.filter_topics db topic_pk) ->
  In p (PostViewSet.filter_topics (run db calls) topic_pk).
Proof.
  unfold PostViewSet.filter_topics. rewrite !filter_In.
  destruct (run_extends calls db) as (_ & [ps P] & _ & _).
  destruct (run_join_grows calls db) as [rows J].
  rewrite P, J. intros [Hin Hrow]. split.
  - apply in_or_app. left. exact Hin.
  - rewrite existsb_app. apply orb_true_iff. left. exact Hrow.
Qed.

(** ** Expiry is for good *)

(** X4: a post that is Expired at some instant is Expired at every later
    one; it stays in the expired listing of its topic, and is never in the
    live listing, at any later instant and after any calls. *)
Theorem expired_is_permanent {B : Backend}
  (db : Database) (calls : list Call) (topic_pk : Topic) (p : Post)
  (now now' : datetime) :
  now <= now' ->
  PostSerializer.get_status p now = PostSerializer.EXPIRED ->
  PostSerializer.get_status p now' = PostSerializer.EXPIRED
  /\ (In p (PostViewSet.get_queryset db topic_pk (Some "expired") None now) ->
      In p (PostViewSet.get_queryset (run db calls) topic_pk (Some "expired")
              None now'))
  /\ ~ In p (PostViewSet.get_queryset (run db calls) topic_pk (Some "live")
               None now').
Proof.
  intros Hle Hexp.
  assert (Hlt : expiry_date p < now).
  { unfold PostSerializer.get_status in Hexp.
    destruct (Z.ltb_spec (expiry_date p) now); [assumption | discriminate]. }
  assert (Hlt' : (expiry_date p <? now') = true) by (apply Z.ltb_lt; lia).
  split; [| split].
  - unfold PostSerializer.get_status. rewrite Hlt'. reflexivity.
  - unfold PostViewSet.get_queryset. simpl. rewrite !filter_In.
    intros [Hin _]. split; [| exact Hlt'].
    apply filter_topics_kept, Hin.
  - unfold PostViewSet.get_queryset. simpl. rewrite filter_In.
    intros [_ Hge]. rewrite Z.geb_leb in Hge. apply Z.leb_le in Hge. lia.
Qed.

Lemma expired_is_permanent_witness :
  PostSerializer.get_status the_post 90 = PostSerializer.EXPIRED
  /\ (In the_post
        (PostViewSet.get_queryset (B := ties_in_order) one_post_db "tech"
           (Some "expired") None 11) ->
      In the_post
        (PostViewSet.get_queryset (B := ties_in_order)
           (run one_post_db [mkCall (POST_comments 2%nat 1%nat "late") 12 12])
           "tech" (Some "expired") None 90))
  /\ ~ In the_post
         (PostViewSet.get_queryset (B := ties_in_order)
            (run one_post_db [mkCall (POST_comments 2%nat 1%nat "late") 12 12])
            "tech" (Some "live") None 90).
Proof.
  apply (expired_is_permanent (B := ties_in_order) one_post_db
           [mkCall (POST_comments 2%nat 1%nat "late") 12 12] "tech" the_post 11 90).
  - lia.
  - reflexivity.
Defined.

(** X5: once a post has expired, no call made from then on adds a rating or
    a comment to it; its ratings, comments and tallies stay as they are. *)
Theorem expired_post_is_frozen
  (db : Database) (post_pk : pk) (post : Post) (now : datetime)
  (calls : list Call) :
  Post_objects_get db post_pk = ok post ->
  expiry_date post < now ->
  Forall (fun c => now <= call_now_valid c) calls ->
  rating_set (run db calls) post = rating_set db post
  /\ comment_set (run db calls) post = comment_set db post
  /\ PostSerializer.get_likes (run db calls) post = PostSerializer.get_likes db post
  /\ PostSerializer.get_dislikes (run db calls) post
     = PostSerializer.get_dislikes db post.
Proof.
  intros Hp Hexp Hcalls.
  assert (H : rating_set (run db calls) post = rating_set db post
              /\ comment_set (run db calls) post = comment_set db post).
  { unfold run. revert db Hp.
    induction Hcalls as [| c calls Hc _ IH]; intros db Hp; simpl.
    - split; reflexivity.
    - pose proof (handle_step db c) as S.
      assert (Hp' : Post_objects_get (handle db c) post_pk = ok post).
      { destruct (step_extends _ _ _ S) as (_ & [ps P] & _ & _).
        eapply Post_objects_get_app; [exact P | exact Hp]. }
      destruct (IH _ Hp') as [IHr IHc]. rewrite IHr, IHc.
      destruct (Post_objects_get_found _ _ _ Hp) as [Hid _].
      remember (handle db c) as db' eqn:Edb. clear Edb IH IHr IHc Hp'.
      destruct S as [c | user pk' data value post' nv ns Hv Hp1 Hu Hle Hnone
                    | user pk' text post' nv ns Hv Hp1 Hle
                    | user data vd nv ns].
      + split; reflexivity.
      + split; [| reflexivity].
        rewrite rating_set_insert. simpl rating_post.
        destruct (Nat.eqb_spec (post_id post') (post_id post)) as [Heq | Hne];
          [| apply app_nil_r].
        destruct (Post_objects_get_found _ _ _ Hp1) as [Hid' _].
        assert (pk' = post_pk) by congruence. subst pk'.
        assert (post' = post) by (unfold ok in *; congruence). subst post'.
        simpl in Hc. lia.
      + split; [reflexivity |].
        unfold comment_set, insert_comment. simpl.
        rewrite filter_app. simpl.
        destruct (Nat.eqb_spec (post_id post') (post_id post)) as [Heq | Hne];
          [| apply app_nil_r].
        destruct (Post_objects_get_found _ _ _ Hp1) as [Hid' _].
        assert (pk' = post_pk) by congruence. subst pk'.
        assert (post' = post) by (unfold ok in *; congruence). subst post'.
        simpl in Hc. lia.
      + destruct (post_create_tables db user ns vd) as (_ & _ & R & C).
        unfold rating_set, comment_set. rewrite R, C. split; reflexivity. }
  destruct H as [Hr Hc].
  unfold PostSerializer.get_likes, PostSerializer.get_dislikes.
  rewrite Hr. repeat split; assumption.
Qed.

Lemma expired_post_is_frozen_witness :
  rating_set
    (run rated_db [mkCall (POST_ratings 3%nat 1%nat (Some "LIKE")) 11 11;
                   mkCall (POST_comments 3%nat 1%nat "late") 12 12]) the_post
  = rating_set rated_db the_post
  /\ comment_set
       (run rated_db [mkCall (POST_ratings 3%nat 1%nat (Some "LIKE")) 11 11;
                      mkCall (POST_comments 3%nat 1%nat "late") 12 12]) the_post
     = comment_set rated_db the_post
  /\ PostSerializer.get_likes
       (run rated_db [mkCall (POST_ratings 3%nat 1%nat (Some "LIKE")) 11 11;
                      mkCall (POST_comments 3%nat 1%nat "late") 12 12]) the_post
     = PostSerializer.get_likes rated_db the_post
  /\ PostSerializer.get_dislikes
       (run rated_db [mkCall (POST_ratings 3%nat 1%nat (Some "LIKE")) 11 11;
                      mkCall (POST_comments 3%nat 1%nat "late") 12 12]) the_post
     = PostSerializer.get_dislikes rated_db the_post.
Proof.
  apply (expired_post_is_frozen rated_db 1%nat the_post 11).
  - reflexivity.
  - simpl; lia.
  - repeat constructor; simpl; lia.
Defined.

(** ** Primary keys *)

(** The keys of each table count its rows from 1 upwards. *)
Definition keys_in_sequence (db : Database) : Prop :=
  map post_id (post_table db) = seq 1 (List.length (post_table db))
  /\ map rating_id (rating_table db) = seq 1 (List.length (rating_table db))
  /\ map comment_id (comment_table db) = seq 1 (List.length (comment_table db)).

Lemma keys_appended {A} (key : A -> pk) (table : list A) (row : A) :
  map key table = seq 1 (List.length table) ->
  key row = next_pk table ->
  map key (table ++ [row]) = seq 1 (List.length (table ++ [row])).
Proof.
  intros Hkeys Hrow.
  rewrite map_app, length_app, Hkeys. simpl.
  rewrite Nat.add_1_r, seq_S, Hrow. reflexivity.
Qed.

Lemma step_keys_in_sequence db c db' :
  step db c db' -> keys_in_sequence db -> keys_in_sequence db'.
Proof.
  intros S (P & R & C). destruct S.
  - repeat split; assumption.
  - repeat split; try assumption.
    simpl rating_table. apply keys_appended; [exact R | reflexivity].
  - repeat split; try assumption.
    simpl comment_table. apply keys_appended; [exact C | reflexivity].
  - destruct (post_create_tables db user now_save validated_data) as (_ & P' & R' & C').
    unfold keys_in_sequence. rewrite P', R', C'.
    repeat split; try assumption.
    apply keys_appended; [exact P | reflexivity].
Qed.

Lemma run_keys_in_sequence calls : forall db,
  keys_in_sequence db -> keys_in_sequence (run db calls).
Proof.
  unfold run. induction calls as [| c calls IH]; intros db K; simpl.
  - exact K.
  - apply IH. apply (step_keys_in_sequence db c), K. apply handle_step.
Qed.

Lemma reachable_keys_in_sequence (topics : list Topic) (calls : list Call) :
  keys_in_sequence (run (empty_database topics) calls).
Proof.
  apply run_keys_in_sequence. repeat split.
Qed.

(** X6: in every state reached from an installation without posts, no two
    posts share a key, nor do two ratings, nor two comments. *)
Theorem keys_are_distinct (topics : list Topic) (calls : list Call) :
  let db := run (empty_database topics) calls in
  NoDup (map post_id (post_table db))
  /\ NoDup (map rating_id (rating_table db))
  /\ NoDup (map comment_id (comment_table db)).
Proof.
  intros db.
  destruct (reachable_keys_in_sequence topics calls) as (P & R & C).
  fold db in P, R, C. rewrite P, R, C.
  repeat split; apply seq_NoDup.
Qed.

Lemma find_by_key {A} (key : A -> pk) (l : list A) (a : A) :
  NoDup (map key l) -> In a l ->
  find (fun x => Nat.eqb (key x) (key a)) l = Some a.
Proof.
  induction l as [| x l IH]; simpl; intros N Hin; [destruct Hin |].
  inversion N as [| ? ? Hnot N']; subst.
  destruct Hin as [-> | Hin].
  - rewrite Nat.eqb_refl. reflexivity.
  - destruct (Nat.eqb_spec (key x) (key a)) as [E | _].
    + exfalso. apply Hnot. rewrite E. apply in_map, Hin.
    + apply IH; assumption.
Qed.

Lemma find_missing_key {A} (key : A -> pk) (l : list A) (k : pk) :
  ~ In k (map key l) -> find (fun x => Nat.eqb (key x) k) l = None.
Proof.
  induction l as [| x l IH]; simpl; intros Hnot; [reflexivity |].
  destruct (Nat.eqb_spec (key x) k) as [E | _].
  - exfalso. apply Hnot. left. exact E.
  - apply IH. intros Hin. apply Hnot. right. exact Hin.
Qed.

Lemma run_app db calls calls' :
  run db (calls ++ calls') = run (run db calls) calls'.
Proof.
  unfold run. apply fold_left_app.
Qed.

Lemma reachable_post_found (topics : list Topic) (calls : list Call) (p : Post) :
  In p (post_table (run (empty_database topics) calls)) ->
  Post_objects_get (run (empty_database topics) calls) (post_id p) = ok p.
Proof.
  intros Hin.
  destruct (reachable_keys_in_sequence topics calls) as (K & _ & _).
  unfold Post_objects_get.
  rewrite (find_by_key post_id _ p); [reflexivity | | exact Hin].
  rewrite K. apply seq_NoDup.
Qed.

(** X7: in every state reached from an installation without posts, each
    stored post is the one found under its own key; and when a post is
    created there, its key was not in use before and finds the new post
    afterwards. *)
Theorem stored_posts_are_found (topics : list Topic) (calls : list Call) :
  let db := run (empty_database topics) calls in
  (forall p, In p (post_table db) -> Post_objects_get db (post_id p) = ok p)
  /\ (forall user data now_valid now_save db' post,
         PostViewSet.create db user data now_valid now_save = ok (db', post) ->
         Post_objects_get db (post_id post) = raise DoesNotExist
         /\ Post_objects_get db' (post_id post) = ok post).
Proof.
  intros db. split; [intros p; apply reachable_post_found |].
  intros user data nv ns db' post E.
  assert (Hdb' : db' = run (empty_database topics)
                           (calls ++ [mkCall (POST_posts user data) nv ns])).
  { rewrite run_app. fold db. unfold run; simpl. unfold handle; simpl.
    rewrite E. reflexivity. }
  apply post_create_ok in E. destruct E as [E' _].
  destruct (post_create_tables db user ns (stripped data)) as (_ & P & _ & _).
  rewrite E' in P. simpl in P.
  split.
  - assert (Hid : post_id post = next_pk (post_table db))
      by (unfold PostSerializer.create in E'; injection E' as _ <-; reflexivity).
    destruct (reachable_keys_in_sequence topics calls) as (K & _ & _). fold db in K.
    unfold Post_objects_get.
    rewrite (find_missing_key post_id); [reflexivity |].
    rewrite K, Hid, in_seq. unfold next_pk. lia.
  - rewrite Hdb'. apply reachable_post_found. rewrite <- Hdb', P.
    apply in_or_app. right. left. reflexivity.
Qed.

(** X8: a post that is found under a key is found under it, unchanged, after
    any calls: no call removes a post or alters its owner, its dates or its
    text; and no call alters the topics. *)
Theorem posts_are_never_altered
  (db : Database) (calls : list Call) (post_pk : pk) (post : Post) :
  Post_objects_get db post_pk = ok post ->
  Post_objects_get (run db calls) post_pk = ok post
  /\ topic_table (run db calls) = topic_table db.
Proof.
  intros Hp. destruct (run_extends calls db) as (T & [ps P] & _ & _).
  split; [| exact T].
  eapply Post_objects_get_app; [exact P | exact Hp].
Qed.

Lemma posts_are_never_altered_witness :
  Post_objects_get (run one_post_db session) 1%nat = ok the_post
  /\ topic_table (run one_post_db session) = topic_table one_post_db.
Proof.
  apply (posts_are_never_altered one_post_db session 1%nat the_post).
  reflexivity.
Defined.

(** ** What a request for a new post has passed when it is stored *)

Lemma handle_post_cases db user data now_valid now_save :
  handle db (mkCall (POST_posts user data) now_valid now_save) = db
  \/ (handle db (mkCall (POST_posts user data) now_valid now_save)
      = fst (PostSerializer.create db user now_save (stripped data))
      /\ ~ bad_post db now_valid data).
Proof.
  unfold handle. cbn [call_request call_now_valid call_now_save].
  destruct (PostViewSet.create db user data now_valid now_save)
    as [e | [db' post]] eqn:E; [left; reflexivity | right].
  apply post_create_ok in E. destruct E as (E & G).
  rewrite E. split; [reflexivity | exact G].
Qed.

(** A call that is not a request for a new post leaves the posts, the join
    table and the topics alone. *)
Lemma handle_other_tables db c :
  (forall user data, call_request c <> POST_posts user data) ->
  post_table (handle db c) = post_table db
  /\ post_topics (handle db c) = post_topics db
  /\ topic_table (handle db c) = topic_table db.
Proof.
  intros Hreq. pose proof (handle_step db c) as S.
  remember (handle db c) as db' eqn:Edb. clear Edb.
  destruct S; try (repeat split; reflexivity).
  exfalso. apply (Hreq user data). reflexivity.
Qed.

Lemma run_invariant (I : Database -> Prop) :
  (forall db c, I db -> I (handle db c)) ->
  forall calls db, I db -> I (run db calls).
Proof.
  intros Hstep. unfold run.
  induction calls as [| c calls IH]; intros db Hdb; simpl.
  - exact Hdb.
  - apply IH, Hstep, Hdb.
Qed.

(** ** The join table of posts and topics *)

Lemma topics_add_NoDup db post t :
  NoDup (post_topics db) -> NoDup (post_topics (topics_add db post t)).
Proof.
  intros N. unfold topics_add.
  destruct (existsb _ _) eqn:E; [exact N |].
  simpl. apply NoDup_app; [exact N | repeat constructor; intros [] |].
  intros row Hin [<- | []].
  assert (existsb (fun row => Nat.eqb (fst row) (post_id post)
                              && String.eqb (snd row) t) (post_topics db) = true).
  { apply existsb_exists. exists (post_id post, t). split; [exact Hin |].
    simpl. rewrite Nat.eqb_refl, String.eqb_refl. reflexivity. }
  congruence.
Qed.

(** The rows added for a post carry its key and one of the given topics. *)
Lemma topics_fold_rows post topics : forall db,
  NoDup (post_topics db) ->
  let db' := fold_left (fun db topic => topics_add db post topic) topics db in
  NoDup (post_topics db')
  /\ exists rows,
       post_topics db' = post_topics db ++ rows
       /\ Forall (fun row => fst row = post_id post /\ In (snd row) topics) rows.
Proof.
  induction topics as [| t topics IH]; intros db N; simpl.
  - split; [exact N |]. exists []. rewrite app_nil_r.
    split; [reflexivity | constructor].
  - destruct (IH (topics_add db post t) (topics_add_NoDup db post t N))
      as (N' & rows' & E' & F').
    split; [exact N' |].
    assert (Hone : exists rows,
               post_topics (topics_add db post t) = post_topics db ++ rows
               /\ Forall (fun row => fst row = post_id post
                                     /\ In (snd row) (t :: topics)) rows).
    { unfold topics_add. destruct (existsb _ _).
      - exists []. rewrite app_nil_r. split; [reflexivity | constructor].
      - exists [(post_id post, t)]. split; [reflexivity |].
        constructor; [| constructor]. split; [reflexivity | left; reflexivity]. }
    destruct Hone as (rows & E & F).
    exists (rows ++ rows'). split.
    + rewrite E', E, app_assoc. reflexivity.
    + apply Forall_app. split; [exact F |].
      eapply Forall_impl; [| exact F'].
      intros row [Hk Ht]. split; [exact Hk | right; exact Ht].
Qed.

Definition join_table_sound (db : Database) : Prop :=
  NoDup (post_topics db)
  /\ (forall k t, In (k, t) (post_topics db) ->
        In t (topic_table db) /\ (1 <= k <= List.length (post_table db))%nat)
  /\ (forall p, In p (post_table db) ->
        exists t, In (post_id p, t) (post_topics db)).

Lemma post_create_join db user now data :
  NoDup (post_topics db) ->
  let db' := fst (PostSerializer.create db user now data) in
  let post := snd (PostSerializer.create db user now data) in
  post_id post = next_pk (post_table db)
  /\ NoDup (post_topics db')
  /\ (exists rows,
         post_topics db' = post_topics db ++ rows
         /\ Forall (fun row => fst row = post_id post
                               /\ In (snd row) (data_topics data)) rows)
  /\ (forall row, In row (post_topics db) -> In row (post_topics db'))
  /\ (forall t, In t (data_topics data) -> In (post_id post, t) (post_topics db')).
Proof.
  intros N. unfold PostSerializer.create. simpl fst. simpl snd.
  match goal with
  | |- context [fold_left _ ?ts (insert_post db ?p)] =>
      destruct (topics_fold_rows p ts (insert_post db p) N) as (N' & Rows);
      destruct (topics_added p ts (insert_post db p)) as [Keep Added]
  end.
  split; [reflexivity | split; [exact N' | split; [exact Rows | split]]].
  - exact Keep.
  - exact Added.
Qed.

Lemma join_table_sound_same db db' :
  post_table db' = post_table db ->
  post_topics db' = post_topics db ->
  topic_table db' = topic_table db ->
  join_table_sound db -> join_table_sound db'.
Proof.
  intros P J T H. unfold join_table_sound. rewrite P, J, T. exact H.
Qed.

Lemma handle_join_table_sound db c :
  join_table_sound db -> join_table_sound (handle db c).
Proof.
  intros Sound.
  destruct c as [req nv ns].
  destruct req as [user data | user post_pk data | user post_pk text | | |];
    try (match goal with
         | |- join_table_sound (handle db ?c) =>
             destruct (handle_other_tables db c) as (P & J & T);
             [intros ? ?; discriminate |];
             exact (join_table_sound_same _ _ P J T Sound)
         end).
  destruct (handle_post_cases db user data nv ns)
    as [-> | (-> & Good)]; [exact Sound |].
  assert (Gtopics : ~ bad_topics db (data_topics data))
    by (intros Bad; apply Good; right; left; exact Bad).
  destruct Sound as (N & Rows & Posts).
  destruct (post_create_tables db user ns (stripped data)) as (T & P & _ & _).
  destruct (post_create_join db user ns (stripped data) N)
    as (Hid & N' & (rows & E & F) & Keep & Added).
  change (data_topics (stripped data)) with (data_topics data) in F, Added.
  destruct (PostSerializer.create db user ns (stripped data)) as [db' post].
  simpl fst in *. simpl snd in *.
  unfold join_table_sound. rewrite P, T, length_app. simpl List.length.
  split; [exact N' | split].
  - intros k t Hin. rewrite E in Hin. apply in_app_or in Hin.
    destruct Hin as [Hin | Hin].
    + destruct (Rows k t Hin) as [Ht Hk]. split; [exact Ht | lia].
    + rewrite Forall_forall in F. destruct (F _ Hin) as [Hk Ht].
      simpl in Hk, Ht. split.
      * destruct (in_dec string_dec t (topic_table db)) as [Hyes | Hno];
          [exact Hyes |].
        exfalso. apply Gtopics. right. exists t. split; assumption.
      * rewrite Hk, Hid. unfold next_pk. lia.
  - intros p Hin. apply in_app_or in Hin. destruct Hin as [Hin | [<- | []]].
    + destruct (Posts p Hin) as [t Ht]. exists t. apply Keep. exact Ht.
    + destruct (data_topics data) as [| t ts] eqn:Ets.
      * exfalso. apply Gtopics. left. reflexivity.
      * exists t. apply Added. left. reflexivity.
Qed.

Lemma reachable_join_table_sound (topics : list Topic) (calls : list Call) :
  join_table_sound (run (empty_database topics) calls).
Proof.
  apply (run_invariant join_table_sound).
  - intros db c. apply handle_join_table_sound.
  - repeat split; simpl; try constructor; intros; contradiction.
Qed.

(** X9: in every state reached from an installation without posts, the join
    table holds no pair of a post and a topic twice, also when a request
    names a topic twice; each of its rows joins a stored post to a topic of
    the installation; and every stored post is listed under at least one
    topic. *)
Theorem every_post_has_a_topic (topics : list Topic) (calls : list Call) :
  let db := run (empty_database topics) calls in
  NoDup (post_topics db)
  /\ (forall k t, In (k, t) (post_topics db) ->
        In t topics /\ exists p, Post_objects_get db k = ok p)
  /\ (forall p, In p (post_table db) ->
        exists t, In t topics /\ In p (PostViewSet.filter_topics db t)).
Proof.
  intros db.
  destruct (reachable_join_table_sound topics calls) as (N & Rows & Posts).
  destruct (reachable_keys_in_sequence topics calls) as (K & _ & _).
  destruct (run_extends calls (empty_database topics)) as (T & _ & _ & _).
  fold db in N, Rows, Posts, K, T. simpl in T.
  split; [exact N | split].
  - intros k t Hin. destruct (Rows k t Hin) as [Ht Hk].
    split; [rewrite <- T; exact Ht |].
    assert (Hkin : In k (map post_id (post_table db)))
      by (rewrite K; apply in_seq; lia).
    apply in_map_iff in Hkin. destruct Hkin as (p & <- & Hp).
    exists p. apply reachable_post_found, Hp.
  - intros p Hp. destruct (Posts p Hp) as [t Ht].
    exists t. split; [rewrite <- T; apply (Rows _ _ Ht) |].
    unfold PostViewSet.filter_topics. apply filter_In. split; [exact Hp |].
    apply existsb_exists. exists (post_id p, t). split; [exact Ht |].
    simpl. rewrite Nat.eqb_refl, String.eqb_refl. reflexivity.
Qed.

(** ** Stored texts respect the limits of their fields *)

(** A text as a [CharField] of the given length leaves it: stripping changes
    nothing, it is not empty, has at most that many characters, and holds
    no null or surrogate character. *)
Definition clean_text (max_length : nat) (t : text) : Prop :=
  strip t = t
  /\ t <> []
  /\ (List.length t <= max_length)%nat
  /\ ~ In 0%N t
  /\ existsb is_surrogate t = false.

Lemma accepted_text_is_clean max_length data :
  ~ bad_text max_length data -> clean_text max_length (strip data).
Proof.
  unfold bad_text, clean_text. intros Good.
  split; [apply strip_strip |].
  split; [intros E; tauto |].
  split; [lia |].
  split; [tauto |].
  destruct (existsb is_surrogate (strip data)); [tauto | reflexivity].
Qed.

Definition texts_within_limits (db : Database) : Prop :=
  (forall p, In p (post_table db) ->
     clean_text 150 (title p) /\ clean_text 1000 (message p))
  /\ (forall c, In c (comment_table db) -> clean_text 256 (comment c)).

Lemma handle_texts_within_limits db c :
  texts_within_limits db -> texts_within_limits (handle db c).
Proof.
  intros [Posts Comments].
  destruct c as [req nv ns].
  destruct req as [user data | user post_pk data | user post_pk text | | |];
    try (split; assumption).
  - destruct (handle_post_cases db user data nv ns)
      as [-> | (-> & Good)]; [split; assumption |].
    destruct (post_create_tables db user ns (stripped data)) as (_ & P & _ & C).
    unfold texts_within_limits. rewrite P, C. split; [| exact Comments].
    intros p Hin. apply in_app_or in Hin.
    destruct Hin as [Hin | [<- | []]]; [apply Posts, Hin |].
    unfold bad_post in Good.
    split; apply accepted_text_is_clean; tauto.
  - pose proof (handle_step db (mkCall (POST_ratings user post_pk data) nv ns)) as S.
    remember (handle db _) as db' eqn:Edb. clear Edb.
    inversion S; subst; split; assumption.
  - pose proof (handle_step db (mkCall (POST_comments user post_pk text) nv ns)) as S.
    remember (handle db _) as db' eqn:Edb. clear Edb.
    inversion S as [| | ? ? ? post ? ? Hv Hp Hle |]; subst; [split; assumption |].
    split; [exact Posts |].
    intros c Hin. simpl in Hin. apply in_app_or in Hin.
    destruct Hin as [Hin | [<- | []]]; [apply Comments, Hin |].
    simpl. apply accepted_text_is_clean, (CharField_good "comment"), Hv.
Qed.

(** X10: in every state reached from an installation without posts, every
    stored title, message and comment is as its field leaves a text: it
    neither begins nor ends with whitespace (stripping it changes nothing),
    it is not empty, it has at most 150 (title), 1000 (message) or 256
    (comment) characters, and it holds no null or surrogate character. *)
Theorem stored_texts_within_limits (topics : list Topic) (calls : list Call) :
  let db := run (empty_database topics) calls in
  (forall p, In p (post_table db) ->
     clean_text 150 (title p) /\ clean_text 1000 (message p))
  /\ (forall c, In c (comment_table db) -> clean_text 256 (comment c)).
Proof.
  intros db.
  apply (run_invariant texts_within_limits).
  - intros d c. apply handle_texts_within_limits.
  - split; intros ? [].
Qed.

(** ** Under which topics a post is listed *)

(** The join rows added by later calls carry keys beyond the posts that were
    already there. *)
Lemma run_join_rows_fresh calls : forall db,
  exists rows,
    post_topics (run db calls) = post_topics db ++ rows
    /\ Forall (fun row => (List.length (post_table db) < fst row)%nat) rows.
Proof.
  unfold run. induction calls as [| c calls IH]; intros db; simpl.
  - exists []. rewrite app_nil_r. split; [reflexivity | constructor].
  - destruct (IH (handle db c)) as (rows' & E' & F').
    pose proof (handle_step db c) as S.
    destruct (step_join_grows db c _ S) as (rows & E & F).
    destruct (step_extends db c _ S) as (_ & [ps P] & _ & _).
    exists (rows ++ rows'). split.
    + rewrite E', E, app_assoc. reflexivity.
    + apply Forall_app. split.
      * eapply Forall_impl; [| exact F].
        intros row Hrow. cbv beta in *. unfold pk, next_pk in *. lia.
      * eapply Forall_impl; [| exact F'].
        intros row Hrow. cbv beta in *. rewrite P, length_app in Hrow.
        unfold pk in *. lia.
Qed.

(** X11: the topics under which a stored post is listed never change: after
    any further calls it is listed under a topic exactly when it was
    before. *)
Theorem topics_of_a_post_never_change
  (topics : list Topic) (calls calls' : list Call) (p : Post) (t : Topic) :
  In p (post_table (run (empty_database topics) calls)) ->
  In p (PostViewSet.filter_topics (run (run (empty_database topics) calls) calls') t)
  <-> In p (PostViewSet.filter_topics (run (empty_database topics) calls) t).
Proof.
  set (db := run (empty_database topics) calls). intros Hp.
  split; [| apply filter_topics_kept].
  unfold PostViewSet.filter_topics. rewrite !filter_In.
  intros [_ Hrow]. split; [exact Hp |].
  destruct (run_join_rows_fresh calls' db) as (rows & E & F).
  rewrite E, existsb_app in Hrow. apply orb_true_iff in Hrow.
  destruct Hrow as [Hold | Hnew]; [exact Hold | exfalso].
  apply existsb_exists in Hnew. destruct Hnew as (row & Hin & Hmatch).
  apply andb_true_iff in Hmatch. destruct Hmatch as [Hk _].
  apply Nat.eqb_eq in Hk.
  rewrite Forall_forall in F. specialize (F row Hin). simpl in F.
  destruct (reachable_keys_in_sequence topics calls) as (K & _ & _). fold db in K.
  assert (Hid : In (post_id p) (map post_id (post_table db)))
    by (apply in_map, Hp).
  rewrite K in Hid. apply in_seq in Hid.
  clearbody db. unfold pk, Topic in *. lia.
Qed.

Lemma topics_of_a_post_never_change_witness :
  In (mkPost 1%nat "P" "hello" 1%nat 0 60)
     (PostViewSet.filter_topics
        (run (run (empty_database (map fst Topic.TYPES)) session)
             [mkCall (POST_posts 2%nat (mkPostData "Q" ["sport"; "tech"] "more" 99))
                     70 70])
        "tech")
  <-> In (mkPost 1%nat "P" "hello" 1%nat 0 60)
         (PostViewSet.filter_topics
            (run (empty_database (map fst Topic.TYPES)) session) "tech").
Proof.
  apply (topics_of_a_post_never_change (map fst Topic.TYPES) session).
  left. reflexivity.
Defined.

(** X12: in a state reached from an installation without posts, a post that
    has just been created is listed under a topic exactly when the request
    named that topic. *)
Theorem new_post_is_listed_under_its_topics
  (topics : list Topic) (calls : list Call)
  user data now_valid now_save db' post :
  PostViewSet.create (run (empty_database topics) calls) user data
                     now_valid now_save = ok (db', post) ->
  forall t, In post (PostViewSet.filter_topics db' t) <-> In t (data_topics data).
Proof.
  set (db := run (empty_database topics) calls). intros E t.
  apply post_create_ok in E. destruct E as (E & _).
  destruct (reachable_join_table_sound topics calls) as (N & Rows & _).
  fold db in N, Rows.
  destruct (post_create_tables db user now_save (stripped data)) as (_ & P & _ & _).
  destruct (post_create_join db user now_save (stripped data) N)
    as (Hid & _ & (rows & J & F) & _ & Added).
  change (data_topics (stripped data)) with (data_topics data) in F, Added.
  rewrite E in P, Hid, J, F, Added. simpl fst in *. simpl snd in *.
  unfold PostViewSet.filter_topics. rewrite filter_In, existsb_exists. split.
  - intros [_ (row & Hin & Hmatch)].
    apply andb_true_iff in Hmatch. destruct Hmatch as [Hk Ht].
    apply Nat.eqb_eq in Hk. apply String.eqb_eq in Ht.
    rewrite J in Hin. apply in_app_or in Hin. destruct Hin as [Hold | Hnew].
    + exfalso. destruct row as [k t']. simpl in Hk.
      destruct (Rows k t' Hold) as [_ Hrange].
      clearbody db. unfold pk, Topic, next_pk in *. lia.
    + rewrite Forall_forall in F. destruct (F row Hnew) as [_ Hsnd].
      destruct row as [k t']. simpl in Ht, Hsnd. subst t'. exact Hsnd.
  - intros Ht. split.
    + rewrite P. apply in_or_app. right. left. reflexivity.
    + exists (post_id post, t). split; [apply Added, Ht |].
      simpl. rewrite Nat.eqb_refl, String.eqb_refl. reflexivity.
Qed.

Lemma new_post_is_listed_under_its_topics_witness :
  In (mkPost 2%nat "Q" "more" 2%nat 70 99)
     (PostViewSet.filter_topics
        (run (run (empty_database (map fst Topic.TYPES)) session)
             [mkCall (POST_posts 2%nat
                        (mkPostData "Q" ["sport"; "tech"; "sport"] "more" 99))
                     70 70])
        "sport")
  <-> In "sport" ["sport"; "tech"; "sport"].
Proof.
  apply (new_post_is_listed_under_its_topics (map fst Topic.TYPES) session
           2%nat (mkPostData "Q" ["sport"; "tech"; "sport"] "more" 99) 70 70).
  reflexivity.
Defined.

(** ** The listing of a topic *)

Lemma filter_complement_Permutation {A} (f g : A -> bool) (l : list A) :
  (forall x, g x = negb (f x)) ->
  Permutation l (filter f l ++ filter g l).
Proof.
  intros Hg. induction l as [| x l IH]; simpl; [constructor |].
  rewrite Hg. destruct (f x); simpl.
  - apply perm_skip, IH.
  - apply Permutation_cons_app, IH.
Qed.

(** X13: the status filter splits the posts of a topic in two: the live
    listing and the expired listing together hold each post of the topic
    exactly as often as the unfiltered listing does, and no post is in
    both. *)
Theorem status_splits_the_listing {B : Backend}
  (db : Database) (topic_pk : Topic) (now : datetime) :
  Permutation
    (PostViewSet.get_queryset db topic_pk None None now)
    (PostViewSet.get_queryset db topic_pk (Some "live") None now
     ++ PostViewSet.get_queryset db topic_pk (Some "expired") None now)
  /\ forall p,
       ~ (In p (PostViewSet.get_queryset db topic_pk (Some "live") None now)
          /\ In p (PostViewSet.get_queryset db topic_pk (Some "expired") None now)).
Proof.
  unfold PostViewSet.get_queryset. simpl. split.
  - apply filter_complement_Permutation. intros p.
    rewrite Z.geb_leb.
    destruct (Z.ltb_spec (expiry_date p) now);
      destruct (Z.leb_spec now (expiry_date p)); try reflexivity; lia.
  - intros p [Hlive Hexp].
    apply filter_In in Hlive. apply filter_In in Hexp.
    destruct Hlive as [_ Hlive]. destruct Hexp as [_ Hexp].
    rewrite Z.geb_leb in Hlive. apply Z.leb_le in Hlive.
    apply Z.ltb_lt in Hexp. lia.
Qed.

Lemma firstn_incl {A} (n : nat) (l : list A) : incl (firstn n l) l.
Proof.
  revert l. induction n as [| n IH]; intros l x; simpl; [intros [] |].
  destruct l as [| a l]; simpl; [intros [] |].
  intros [<- | Hin]; [left; reflexivity | right; apply IH, Hin].
Qed.

Lemma get_queryset_incl {B : Backend} db topic_pk status interest now :
  incl (PostViewSet.get_queryset db topic_pk status interest now)
       (PostViewSet.get_queryset db topic_pk status None now).
Proof.
  unfold PostViewSet.get_queryset.
  destruct interest as [i |]; [| apply incl_refl].
  destruct (String.eqb i "highest").
  - intros p Hin. apply firstn_incl in Hin.
    eapply Permutation_in; [apply Permutation_sym, order_by_Permutation | exact Hin].
  - destruct (String.eqb i "lowest"); [| apply incl_refl].
    intros p Hin. apply firstn_incl in Hin.
    eapply Permutation_in; [apply Permutation_sym, order_by_Permutation | exact Hin].
Qed.

(** X14: whatever the status and interest parameters, every post the
    listing returns is a stored post joined to the topic asked for; with
    status live its expiry date is not before the clock, and with status
    expired it is before the clock, also when an interest is asked for: the
    status filter is applied before the most or least rated post is
    picked. *)
Theorem listing_respects_filters {B : Backend}
  (db : Database) (topic_pk : Topic) (status interest : option string)
  (now : datetime) (p : Post) :
  In p (PostViewSet.get_queryset db topic_pk status interest now) ->
  In p (post_table db)
  /\ In (post_id p, topic_pk) (post_topics db)
  /\ (status = Some "live" -> now <= expiry_date p)
  /\ (status = Some "expired" -> expiry_date p < now).
Proof.
  intros Hin. apply get_queryset_incl in Hin.
  assert (Htopic : In p (PostViewSet.filter_topics db topic_pk)).
  { unfold PostViewSet.get_queryset in Hin.
    destruct status as [s |]; [| exact Hin].
    destruct (String.eqb s "expired"); [apply filter_In in Hin; apply Hin |].
    destruct (String.eqb s "live"); [apply filter_In in Hin; apply Hin | exact Hin]. }
  pose proof Htopic as Hjoin.
  unfold PostViewSet.filter_topics in Hjoin.
  apply filter_In in Hjoin. destruct Hjoin as [Hstored Hjoin].
  apply existsb_exists in Hjoin. destruct Hjoin as ([k t] & Hrow & Hmatch).
  simpl in Hmatch. apply andb_true_iff in Hmatch. destruct Hmatch as [Hk Ht].
  apply Nat.eqb_eq in Hk. apply String.eqb_eq in Ht. subst k t.
  split; [exact Hstored | split; [exact Hrow | split]].
  - intros ->. unfold PostViewSet.get_queryset in Hin. simpl in Hin.
    apply filter_In in Hin. destruct Hin as [_ Hge].
    rewrite Z.geb_leb in Hge. apply Z.leb_le, Hge.
  - intros ->. unfold PostViewSet.get_queryset in Hin. simpl in Hin.
    apply filter_In in Hin. destruct Hin as [_ Hlt]. apply Z.ltb_lt, Hlt.
Qed.

Lemma listing_respects_filters_witness :
  In the_post (post_table two_posts_db)
  /\ In (post_id the_post, "tech") (post_topics two_posts_db)
  /\ (Some "live" = Some "live" -> 5 <= expiry_date the_post)
  /\ (Some "live" = Some "expired" -> expiry_date the_post < 5).
Proof.
  apply (listing_respects_filters (B := ties_in_order) two_posts_db "tech"
           (Some "live") (Some "lowest") 5 the_post).
  left. reflexivity.
Defined.

(** X15: when one post of the listing has strictly more ratings than every
    other, the highest-interest query returns that post, whatever the
    database engine; and likewise the lowest-interest query returns the post
    that has strictly fewer ratings than every other. *)
Theorem strict_leader_is_returned {B : Backend}
  (db : Database) (topic_pk : Topic) (status : option string)
  (now : datetime) (p : Post) :
  In p (PostViewSet.get_queryset db topic_pk status None now) ->
  ((forall q, In q (PostViewSet.get_queryset db topic_pk status None now) ->
      q = p \/ PostViewSet.num_ratings db q < PostViewSet.num_ratings db p) ->
   PostViewSet.get_queryset db topic_pk status (Some "highest") now = [p])
  /\ ((forall q, In q (PostViewSet.get_queryset db topic_pk status None now) ->
         q = p \/ PostViewSet.num_ratings db p < PostViewSet.num_ratings db q) ->
      PostViewSet.get_queryset db topic_pk status (Some "lowest") now = [p]).
Proof.
  intros Hp.
  rewrite get_queryset_highest, get_queryset_lowest.
  set (posts := PostViewSet.get_queryset db topic_pk status None now) in *.
  assert (Hne : posts <> []) by (intros E; rewrite E in Hp; destruct Hp).
  split; intros Hlead.
  - destruct (order_by_first (fun q => - PostViewSet.num_ratings db q) posts Hne)
      as (p' & -> & Hin' & Hbest).
    specialize (Hbest p Hp). simpl in Hbest.
    destruct (Hlead p' Hin') as [-> | Hless]; [reflexivity | lia].
  - destruct (order_by_first (fun q => PostViewSet.num_ratings db q) posts Hne)
      as (p' & -> & Hin' & Hbest).
    specialize (Hbest p Hp). simpl in Hbest.
    destruct (Hlead p' Hin') as [-> | Hless]; [reflexivity | lia].
Qed.

(** The two posts under tech, the second rated once. *)
Definition second_rated_db : Database :=
  insert_rating two_posts_db (mkRating 1%nat 3%nat 2%nat LIKE 5).

Lemma strict_leader_is_returned_witness :
  PostViewSet.get_queryset (B := ties_in_order) second_rated_db "tech" None
    (Some "highest") 5 = [second_post]
  /\ PostViewSet.get_queryset (B := ties_reversed) second_rated_db "tech" None
       (Some "lowest") 5 = [the_post].
Proof.
  split.
  - apply (strict_leader_is_returned (B := ties_in_order) second_rated_db "tech"
             None 5 second_post).
    + right. left. reflexivity.
    + intros q [<- | [<- | []]]; [right; vm_compute; reflexivity | left; reflexivity].
  - apply (strict_leader_is_returned (B := ties_reversed) second_rated_db "tech"
             None 5 the_post).
    + left. reflexivity.
    + intros q [<- | [<- | []]]; [left; reflexivity | right; vm_compute; reflexivity].
Defined.

(** ** Requests that field validation or the lookup of the post refuses *)

(** X16: the text of a comment is checked before the post is looked up: a
    text of which nothing is left once stripped (empty, or whitespace only)
    is refused as blank, and every text the field refuses gives a field
    error, even when the post does not exist; a text the field accepts, sent
    for a missing post, raises [DoesNotExist]; in all these cases nothing is
    written. *)
Theorem comment_text_checked_before_post
  (db : Database) (user : User) (post_pk : pk) (text : text)
  (now_valid now_save : datetime) :
  (strip text = [] ->
   CommentViewSet.create db user post_pk text now_valid now_save
   = raise (ValidationError (field_errors [("comment", "blank")])))
  /\ (bad_text 256 text ->
      exists errs,
        CommentViewSet.create db user post_pk text now_valid now_save
        = raise (ValidationError (field_errors errs)))
  /\ (~ bad_text 256 text ->
      Post_objects_get db post_pk = raise DoesNotExist ->
      CommentViewSet.create db user post_pk text now_valid now_save
      = raise DoesNotExist)
  /\ ((bad_text 256 text \/ Post_objects_get db post_pk = raise DoesNotExist) ->
      handle db (mkCall (POST_comments user post_pk text) now_valid now_save) = db).
Proof.
  assert (Hblank : strip text = [] ->
            CommentViewSet.create db user post_pk text now_valid now_save
            = raise (ValidationError (field_errors [("comment", "blank")]))).
  { intros E. unfold CommentViewSet.create, CommentSerializer.to_internal_value,
      CharField. rewrite E. reflexivity. }
  assert (Hbad : bad_text 256 text ->
            exists errs,
              CommentViewSet.create db user post_pk text now_valid now_save
              = raise (ValidationError (field_errors errs))).
  { intros Bad. unfold CommentViewSet.create, CommentSerializer.to_internal_value.
    destruct (CharField_cases "comment" 256 text) as [[_ G] | [E _]];
      [contradiction |].
    destruct (CharField "comment" 256 text) as [| err errs]; [contradiction |].
    eexists. reflexivity. }
  assert (Hmissing : ~ bad_text 256 text ->
            Post_objects_get db post_pk = raise DoesNotExist ->
            CommentViewSet.create db user post_pk text now_valid now_save
            = raise DoesNotExist).
  { intros Good Hp.
    unfold CommentViewSet.create, CommentSerializer.to_internal_value,
      CommentSerializer.validate.
    rewrite (CharField_accepts "comment" 256 text Good), bind_ok, Hp.
    reflexivity. }
  split; [exact Hblank | split; [exact Hbad | split; [exact Hmissing |]]].
  unfold handle. cbn [call_request call_now_valid call_now_save].
  intros [Bad | Hp].
  - destruct (Hbad Bad) as [errs E]. rewrite E. reflexivity.
  - destruct (CharField_cases "comment" 256 text) as [[_ Good] | [_ Bad]].
    + rewrite (Hmissing Good Hp). reflexivity.
    + destruct (Hbad Bad) as [errs E]. rewrite E. reflexivity.
Qed.

(** X17: a rating value other than the two stored values of [Rate] is
    refused with a field error on [rating], in any state, for any user, post
    key and clock, before the post is looked up; nothing is written. *)
Theorem unknown_rating_value_refused
  (db : Database) (user : User) (post_pk : pk) (s : string)
  (now_valid now_save : datetime) :
  s <> "LIKE" -> s <> "DISLIKE" ->
  RatingViewSet.create db user post_pk (Some s) now_valid now_save
  = raise (ValidationError (field_errors [("rating", "invalid_choice")]))
  /\ handle db (mkCall (POST_ratings user post_pk (Some s)) now_valid now_save)
     = db.
Proof.
  intros Hl Hd.
  assert (E : RatingViewSet.create db user post_pk (Some s) now_valid now_save
              = raise (ValidationError
                         (field_errors [("rating", "invalid_choice")]))).
  { unfold RatingViewSet.create, RatingSerializer.to_internal_value,
      Rate_of_string.
    apply String.eqb_neq in Hl. apply String.eqb_neq in Hd.
    rewrite Hl, Hd. reflexivity. }
  split; [exact E |].
  unfold handle. cbn [call_request call_now_valid call_now_save].
  rewrite E. reflexivity.
Qed.

Lemma unknown_rating_value_refused_witness :
  RatingViewSet.create one_post_db 2%nat 7%nat (Some "LOVE") 3 3
  = raise (ValidationError (field_errors [("rating", "invalid_choice")]))
  /\ handle one_post_db (mkCall (POST_ratings 2%nat 7%nat (Some "LOVE")) 3 3)
     = one_post_db.
Proof.
  apply (unknown_rating_value_refused one_post_db 2%nat 7%nat "LOVE" 3 3);
    discriminate.
Defined.

(** ** The sign of the stored time left *)

(** X18: the time left stored with an accepted rating or comment is never
    below minus the time that passed between the clock reading of
    validation and the one of the save; it is not negative when the two
    readings are equal. *)
Theorem time_left_lower_bound :
  (forall db user post_pk data now_valid now_save db' r,
      RatingViewSet.create db user post_pk data now_valid now_save = ok (db', r) ->
      now_valid - now_save <= rating_time_left_until_post_expiry r
      /\ (now_save = now_valid -> 0 <= rating_time_left_until_post_expiry r)) /\
  (forall db user post_pk text now_valid now_save db' c,
      CommentViewSet.create db user post_pk text now_valid now_save = ok (db', c) ->
      now_valid - now_save <= comment_time_left_until_post_expiry c
      /\ (now_save = now_valid -> 0 <= comment_time_left_until_post_expiry c)).
Proof.
  split.
  - intros db user post_pk data nv ns db' r E.
    apply rating_create_ok in E.
    destruct E as (value & post & _ & _ & _ & Hle & _ & -> & _).
    simpl. split; [lia | intros ->; lia].
  - intros db user post_pk text nv ns db' c E.
    apply comment_create_ok in E.
    destruct E as (post & _ & _ & Hle & -> & _).
    simpl. split; [lia | intros ->; lia].
Qed.

(** ** Ratings and comments belong to stored posts *)

Definition comments_on_posts (db : Database) : Prop :=
  forall c, In c (comment_table db) ->
    exists post, Post_objects_get db (comment_post c) = ok post.

Lemma step_comments_on_posts db c db' :
  step db c db' -> comments_on_posts db -> comments_on_posts db'.
Proof.
  intros S I. destruct S as [c | user post_pk data value post nv ns Hv Hp Hu Hle Hnone
                            | user post_pk text post nv ns Hv Hp Hle
                            | user data vd nv ns].
  - exact I.
  - intros c Hc. simpl in Hc.
    rewrite (Post_objects_get_same_posts db) by reflexivity. apply I, Hc.
  - intros c Hc. simpl in Hc. apply in_app_or in Hc.
    rewrite (Post_objects_get_same_posts db) by reflexivity.
    destruct Hc as [Hc | [<- | []]]; [apply I, Hc |].
    exists post. simpl.
    destruct (Post_objects_get_found _ _ _ Hp) as [-> _]. exact Hp.
  - destruct (post_create_tables db user ns vd) as (_ & P & _ & C).
    intros c Hc. rewrite C in Hc. destruct (I c Hc) as [post Hp].
    exists post. eapply Post_objects_get_app; [exact P | exact Hp].
Qed.

Lemma filter_none {A} (f : A -> bool) (l : list A) :
  (forall x, In x l -> f x = false) -> filter f l = [].
Proof.
  induction l as [| x l IH]; simpl; intros H; [reflexivity |].
  rewrite (H x (or_introl eq_refl)). apply IH.
  intros y Hy. apply H. right. exact Hy.
Qed.

(** X19: in every state reached from an installation without posts, each
    comment belongs to a stored post, and so does each rating; hence the
    listings of the ratings and of the comments of a key under which no post
    is stored are empty (the views raise no error for it). *)
Theorem listings_of_a_missing_post_are_empty
  (topics : list Topic) (calls : list Call) :
  let db := run (empty_database topics) calls in
  (forall c, In c (comment_table db) ->
     exists post, Post_objects_get db (comment_post c) = ok post)
  /\ (forall r, In r (rating_table db) ->
        exists post, Post_objects_get db (rating_post r) = ok post)
  /\ (forall post_pk,
        Post_objects_get db post_pk = raise DoesNotExist ->
        RatingViewSet.get_queryset db post_pk = []
        /\ CommentViewSet.get_queryset db post_pk = []).
Proof.
  intros db.
  assert (HC : comments_on_posts db).
  { apply (run_invariant comments_on_posts).
    - intros d c. apply (step_comments_on_posts d c), handle_step.
    - intros c []. }
  assert (HR : forall r, In r (rating_table db) ->
                 exists post, Post_objects_get db (rating_post r) = ok post).
  { intros r Hr.
    destruct (run_rated_by_others calls (empty_database topics)
                ltac:(intros ? []) r Hr) as (post & Hp & _).
    exists post. exact Hp. }
  split; [exact HC | split; [exact HR |]].
  intros post_pk Hmissing. split.
  - apply filter_none. intros r Hr.
    destruct (Nat.eqb_spec (rating_post r) post_pk) as [<- | _]; [| reflexivity].
    destruct (HR r Hr) as [post Hp]. unfold ok, raise in *. congruence.
  - apply filter_none. intros c Hc.
    destruct (Nat.eqb_spec (comment_post c) post_pk) as [<- | _]; [| reflexivity].
    destruct (HC c Hc) as [post Hp]. unfold ok, raise in *. congruence.
Qed.

(** ** The errors of a refused post *)

Lemma run_validators_only_names name max_length value other :
  In other (map fst (run_validators name max_length value)) -> other = name.
Proof.
  unfold run_validators. rewrite !map_app, !in_app_iff.
  destruct (Nat.ltb max_length (List.length value));
    destruct (existsb (N.eqb 0) value);
    destruct (existsb is_surrogate value); simpl; intuition congruence.
Qed.

Lemma CharField_only_names name max_length data other :
  In other (map fst (CharField name max_length data)) -> other = name.
Proof.
  unfold CharField. destruct (strip data) as [| c value].
  - intros [<- | []]; reflexivity.
  - apply run_validators_only_names.
Qed.

Lemma CharField_names name max_length data :
  In name (map fst (CharField name max_length data)) <-> bad_text max_length data.
Proof.
  destruct (CharField_cases name max_length data) as [[E G] | [E Bad]].
  - rewrite E. simpl. tauto.
  - split; [intros _; exact Bad | intros _].
    pose proof (CharField_only_names name max_length data) as Only.
    destruct (CharField name max_length data) as [| [field code] errs];
      [contradiction |].
    left. simpl. apply (Only field). left. reflexivity.
Qed.

Lemma topics_field_names db topics :
  In "topics" (map fst (PostSerializer.topics_field db topics))
  <-> bad_topics db topics.
Proof.
  destruct (topics_field_cases db topics) as [[E G] | [E Bad]].
  - rewrite E. simpl. tauto.
  - split; [intros _; exact Bad | intros _].
    unfold PostSerializer.topics_field in *.
    destruct topics; [left; reflexivity |].
    destruct (forallb _ _); [contradiction | left; reflexivity].
Qed.

Lemma topics_field_only_names db topics other :
  In other (map fst (PostSerializer.topics_field db topics)) -> other = "topics".
Proof.
  unfold PostSerializer.topics_field.
  destruct topics; [intros [<- | []]; reflexivity |].
  destruct (forallb _ _); [intros [] | intros [<- | []]; reflexivity].
Qed.

Lemma expiry_date_field_names value now :
  In "expiry_date" (map fst (PostSerializer.expiry_date_field value now))
  <-> value < now.
Proof.
  unfold PostSerializer.expiry_date_field, PostSerializer.validate_expiry_date.
  destruct (Z.ltb_spec value now); simpl; [tauto |].
  split; [intros [] | lia].
Qed.

Lemma expiry_date_field_only_names value now other :
  In other (map fst (PostSerializer.expiry_date_field value now)) ->
  other = "expiry_date".
Proof.
  unfold PostSerializer.expiry_date_field, PostSerializer.validate_expiry_date.
  destruct (value <? now); simpl; [intros [<- | []]; reflexivity | intros []].
Qed.

(** X20: a refused request for a new post is told all its faults at once:
    the validation error names the field title exactly when the field
    refuses the title (once stripped it is empty, or longer than 150
    characters, or holds a null or surrogate character), topics exactly
    when the list is empty or holds an unknown topic, message exactly when
    the field refuses the message (the same, with 1000 characters), and
    expiry_date exactly when the date is before the clock. *)
Theorem refused_post_names_every_bad_field
  (db : Database) (user : User) (data : PostData)
  (now_valid now_save : datetime) (d : detail) :
  PostViewSet.create db user data now_valid now_save = raise (ValidationError d) ->
  exists errs,
    d = field_errors errs
    /\ (In "title" (map fst errs) <-> bad_text 150 (data_title data))
    /\ (In "topics" (map fst errs) <-> bad_topics db (data_topics data))
    /\ (In "message" (map fst errs) <-> bad_text 1000 (data_message data))
    /\ (In "expiry_date" (map fst errs) <-> data_expiry_date data < now_valid).
Proof.
  intros E.
  exists (CharField "title" 150 (data_title data)
          ++ PostSerializer.topics_field db (data_topics data)
          ++ CharField "message" 1000 (data_message data)
          ++ PostSerializer.expiry_date_field (data_expiry_date data) now_valid).
  split.
  - unfold PostViewSet.create, PostSerializer.to_internal_value in E.
    destruct (_ ++ _) as [| err errs]; [discriminate E |].
    unfold raise in E. simpl in E. congruence.
  - rewrite !map_app. repeat rewrite in_app_iff.
    pose proof (CharField_names "title" 150 (data_title data)) as T.
    pose proof (topics_field_names db (data_topics data)) as P.
    pose proof (CharField_names "message" 1000 (data_message data)) as M.
    pose proof (expiry_date_field_names (data_expiry_date data) now_valid) as X.
    pose proof (CharField_only_names "title" 150 (data_title data)) as T'.
    pose proof (topics_field_only_names db (data_topics data)) as P'.
    pose proof (CharField_only_names "message" 1000 (data_message data)) as M'.
    pose proof (expiry_date_field_only_names (data_expiry_date data) now_valid)
      as X'.
    repeat split;
      try (intros [H | [H | [H | H]]];
           first [ apply T in H | apply P in H | apply M in H | apply X in H
                 | apply T' in H; discriminate H
                 | apply P' in H; discriminate H
                 | apply M' in H; discriminate H
                 | apply X' in H; discriminate H ];
           exact H);
      tauto.
Qed.

Lemma refused_post_names_every_bad_field_witness :
  exists errs,
    field_errors [("title", "blank"); ("topics", "does_not_exist");
                  ("expiry_date", "Expiry date must not be in the past.")]
    = field_errors errs
    /\ (In "title" (map fst errs) <-> bad_text 150 "   ")
    /\ (In "topics" (map fst errs) <-> bad_topics one_post_db ["tech"; "cats"])
    /\ (In "message" (map fst errs) <-> bad_text 1000 "m")
    /\ (In "expiry_date" (map fst errs) <-> 4 < 5).
Proof.
  apply (refused_post_names_every_bad_field one_post_db 3%nat
           (mkPostData "   " ["tech"; "cats"] "m" 4) 5 5).
  reflexivity.
Defined.

(** ** Comments are not limited to one per user *)

(** X21: an accepted comment does not stand in the way of another: the same
    user, the owner of the post included, may send the same text again, and
    while the post has not expired it is stored again, as a further row of
    the comments of the post. *)
Theorem comments_can_be_repeated
  db user post_pk text now_valid now_save db' c now_valid' now_save' :
  CommentViewSet.create db user post_pk text now_valid now_save = ok (db', c) ->
  exists post,
    Post_objects_get db post_pk = ok post
    /\ (now_valid' <= expiry_date post ->
        exists db'' c',
          CommentViewSet.create db' user post_pk text now_valid' now_save'
          = ok (db'', c')
          /\ comment_set db'' post = comment_set db post ++ [c; c']).
Proof.
  intros E. apply comment_create_ok in E.
  destruct E as (post & Hv & Hp & _ & -> & ->).
  exists post. split; [exact Hp |]. intros Hle.
  set (c := new_comment db user post (strip text) now_save).
  assert (Hp' : Post_objects_get (insert_comment db c) post_pk = ok post)
    by (rewrite (Post_objects_get_same_posts db) by reflexivity; exact Hp).
  exists (insert_comment (insert_comment db c)
            (new_comment (insert_comment db c) user post (strip text) now_save')),
         (new_comment (insert_comment db c) user post (strip text) now_save').
  split.
  - rewrite (comment_create_found _ _ _ _ now_valid' now_save' _ Hv Hp').
    apply Z.ltb_ge in Hle. rewrite Hle. reflexivity.
  - unfold comment_set, insert_comment. simpl.
    rewrite !filter_app. simpl. rewrite Nat.eqb_refl.
    rewrite <- app_assoc. reflexivity.
Qed.

Lemma comments_can_be_repeated_witness :
  exists post,
    Post_objects_get one_post_db 1%nat = ok post
    /\ (4 <= expiry_date post ->
        exists db'' c',
          CommentViewSet.create
            (insert_comment one_post_db (mkComment 1%nat 1%nat 1%nat "same" 7))
            1%nat 1%nat "same" 4 4
          = ok (db'', c')
          /\ comment_set db'' post
             = comment_set one_post_db post
               ++ [mkComment 1%nat 1%nat 1%nat "same" 7; c']).
Proof.
  apply (comments_can_be_repeated one_post_db 1%nat 1%nat "same" 3 3).
  reflexivity.
Defined.

(** ** The dates of a stored post *)

(** X22: a post is stored with an expiry date that is not before the clock
    read by validation, so the expiry date precedes the creation time by no
    more than the time between that reading and the one of the save; when
    the two readings are equal the expiry date is not before the creation
    time. *)
Theorem post_expiry_not_before_validation
  db user data now_valid now_save db' post :
  PostViewSet.create db user data now_valid now_save = ok (db', post) ->
  now_valid <= expiry_date post
  /\ date_created post - expiry_date post <= now_save - now_valid
  /\ (now_save = now_valid -> date_created post <= expiry_date post).
Proof.
  intros E. apply post_create_ok in E. destruct E as (E & Good).
  assert (Hle : now_valid <= data_expiry_date data)
    by (unfold bad_post in Good; lia).
  unfold PostSerializer.create in E. injection E as _ <-. simpl.
  repeat split; lia.
Qed.

Lemma post_expiry_not_before_validation_witness :
  50 <= expiry_date (mkPost 2%nat "T" "m" 3%nat 52 51)
  /\ date_created (mkPost 2%nat "T" "m" 3%nat 52 51)
     - expiry_date (mkPost 2%nat "T" "m" 3%nat 52 51) <= 52 - 50
  /\ (52 = 50 -> date_created (mkPost 2%nat "T" "m" 3%nat 52 51)
                 <= expiry_date (mkPost 2%nat "T" "m" 3%nat 52 51)).
Proof.
  apply (post_expiry_not_before_validation one_post_db 3%nat
           (mkPostData "T" ["tech"] "m" 51) 50 52
           (fst (PostSerializer.create one_post_db 3%nat 52
                   (mkPostData "T" ["tech"] "m" 51)))).
  reflexivity.
Defined.
